(** * ACME dashboard: the server actions of [app/lib/actions.ts]

    A shallow embedding of the form actions (invoice and customer create,
    update and delete, and the credential sign-in) together with the parts
    of their runtime they lean on: JavaScript numbers and strings, the
    [FormData] container, the zod schemas the file declares, the tagged
    SQL statements it sends to the store, and the two Next.js effects
    [revalidatePath] and [redirect]. *)

From Stdlib Require Import ZArith NArith Bool List Ascii SpecFloat Lia.
From Stdlib Require String.
From stdpp Require Import base option list gmap strings.

Local Open Scope Z_scope.

(** ** JavaScript runtime *)

Module JS.

(** *** Numbers

    A JavaScript number is an IEEE 754 binary64 value.  [spec_float] with
    53 bits of precision and [emax = 1024] is exactly that format; the
    payload of NaN is not observable from JavaScript and is not kept. *)

Definition Number : Type := spec_float.

Definition prec : Z := 53.
Definition emax : Z := 1024.

Definition NaN : Number := S754_nan.
Definition Infinity : Number := S754_infinity false.
Definition pos_zero : Number := S754_zero false.

(** [x * y], [x <= y] and [x < y] on numbers. *)
Definition mul (x y : Number) : Number := SFmul prec emax x y.
Definition leb (x y : Number) : bool := SFleb x y.
Definition ltb (x y : Number) : bool := SFltb x y.

Definition isNaN (x : Number) : bool :=
  match x with S754_nan => true | _ => false end.

(** The number nearest to [num / den] (ties to even), with the sign
    [neg]; [num] and [den] are positive. *)
Definition of_ratio (neg : bool) (num den : Z) : Number :=
  let '(q, e, l) := SFdiv_core_binary prec emax num 0 den 0 in
  binary_round_aux prec emax neg q e l.

(** The number nearest to the integer [z]. *)
Definition of_Z (z : Z) : Number :=
  match z with
  | Z0 => pos_zero
  | Zpos _ => of_ratio false z 1
  | Zneg p => of_ratio true (Zpos p) 1
  end.

(** The number nearest to [m * 10^e], as a decimal literal denotes it. *)
Definition of_decimal (neg : bool) (m : N) (e : Z) : Number :=
  match m with
  | N0 => S754_zero neg
  | Npos p => of_ratio neg (Zpos p * 10 ^ Z.max e 0) (10 ^ Z.max (- e) 0)
  end.

(** [Number.isInteger]. *)
Definition isInteger (x : Number) : bool :=
  match x with
  | S754_zero _ => true
  | S754_finite _ m e =>
      if 0 <=? e then true else Zpos m mod 2 ^ (- e) =? 0
  | _ => false
  end.

(** *** Strings

    A string is a sequence of code units; the embedding keeps the code
    units below 256, one [ascii] each. *)

(** WhiteSpace and LineTerminator code units: TAB, LF, VT, FF, CR, SP and
    NBSP. *)
Definition is_white_space (c : ascii) : bool :=
  let n := N_of_ascii c in
  ((n =? 9) || (n =? 10) || (n =? 11) || (n =? 12) || (n =? 13)
   || (n =? 32) || (n =? 160))%N.

Fixpoint trimStart (s : string) : string :=
  match s with
  | String c s' => if is_white_space c then trimStart s' else s
  | EmptyString => EmptyString
  end.

Definition trimEnd (s : string) : string :=
  String.rev (trimStart (String.rev s)).

(** [String.prototype.trim]. *)
Definition trim (s : string) : string := trimEnd (trimStart s).

(** [s.split(sep)] for a separator of one code unit. *)
Fixpoint split (sep : ascii) (s : string) : list string :=
  match s with
  | EmptyString => [EmptyString]
  | String c s' =>
      if Ascii.eqb c sep then EmptyString :: split sep s'
      else match split sep s' with
           | w :: ws => String c w :: ws
           | [] => [String c EmptyString]
           end
  end.

(** *** StringToNumber

    The grammar of StringNumericLiteral: optional white space around a
    signed decimal literal (with [Infinity], a fraction and an exponent
    part) or an unsigned binary, octal or hexadecimal integer literal.
    The empty literal is [+0]; anything else is [NaN]. *)

Definition digit_of (base : N) (c : ascii) : option N :=
  let n := N_of_ascii c in
  let v := if ((48 <=? n) && (n <=? 57))%N then Some (n - 48)%N
           else if ((97 <=? n) && (n <=? 102))%N then Some (n - 87)%N
           else if ((65 <=? n) && (n <=? 70))%N then Some (n - 55)%N
           else None in
  match v with
  | Some d => if (d <? base)%N then Some d else None
  | None => None
  end.

(** The longest run of digits at the head of [l]: the value it adds to
    [acc], the number of digits read and what follows. *)
Fixpoint digits (base : N) (l : list ascii) (acc : N) (count : nat)
  : N * nat * list ascii :=
  match l with
  | c :: l' =>
      match digit_of base c with
      | Some d => digits base l' (acc * base + d)%N (S count)
      | None => (acc, count, l)
      end
  | [] => (acc, count, l)
  end.

(** ExponentPart_opt, up to the end of the literal. *)
Definition exponent_part (l : list ascii) : option Z :=
  match l with
  | [] => Some 0
  | c :: l' =>
      if Ascii.eqb c "e" || Ascii.eqb c "E" then
        let '(neg, l2) :=
          match l' with
          | "+"%char :: r => (false, r)
          | "-"%char :: r => (true, r)
          | _ => (false, l')
          end in
        match digits 10 l2 0 0 with
        | (v, S _, []) => Some (if neg then - Z.of_N v else Z.of_N v)
        | _ => None
        end
      else None
  end.

(** StrUnsignedDecimalLiteral under the sign [neg]. *)
Definition unsigned_decimal (neg : bool) (l : list ascii) : Number :=
  if bool_decide (l = String.list_ascii_of_string "Infinity")
  then S754_infinity neg
  else
    let '(ip, ni, r1) := digits 10 l 0 0 in
    let '(m, nf, r2) :=
      match r1 with
      | "."%char :: r => digits 10 r ip 0
      | _ => (ip, O, r1)
      end in
    if (ni + nf =? 0)%nat then NaN
    else match exponent_part r2 with
         | Some e => of_decimal neg m (e - Z.of_nat nf)
         | None => NaN
         end.

Definition radix_of (c : ascii) : option N :=
  if Ascii.eqb c "b" || Ascii.eqb c "B" then Some 2%N
  else if Ascii.eqb c "o" || Ascii.eqb c "O" then Some 8%N
  else if Ascii.eqb c "x" || Ascii.eqb c "X" then Some 16%N
  else None.

(** NonDecimalIntegerLiteral: [0b], [0o] or [0x] and at least one digit. *)
Definition non_decimal (l : list ascii) : option Number :=
  match l with
  | "0"%char :: p :: r =>
      match radix_of p with
      | Some b =>
          match digits b r 0 0 with
          | (v, S _, []) => Some (of_Z (Z.of_N v))
          | _ => Some NaN
          end
      | None => None
      end
  | _ => None
  end.

Definition StringToNumber (s : string) : Number :=
  match String.list_ascii_of_string (trim s) with
  | [] => pos_zero
  | "+"%char :: r => unsigned_decimal false r
  | "-"%char :: r => unsigned_decimal true r
  | l => match non_decimal l with
         | Some v => v
         | None => unsigned_decimal false l
         end
  end.

(** *** Dates

    A Date holds a time value: milliseconds since the epoch, UTC. *)

Definition msPerDay : Z := 86400000.

(** Year, month (1 to 12) and day of the month of a day number counted
    from 1 January 1970, in the proleptic Gregorian calendar. *)
Definition civil_from_days (day : Z) : Z * Z * Z :=
  let z := day + 719468 in
  let era := z / 146097 in
  let doe := z - era * 146097 in
  let yoe := (doe - doe / 1460 + doe / 36524 - doe / 146096) / 365 in
  let doy := doe - (365 * yoe + yoe / 4 - yoe / 100) in
  let mp := (5 * doy + 2) / 153 in
  let d := doy - (153 * mp + 2) / 5 + 1 in
  let m := if mp <? 10 then mp + 3 else mp - 9 in
  let y := yoe + era * 400 in
  (if m <=? 2 then y + 1 else y, m, d).

Definition digit_char (d : Z) : ascii := ascii_of_N (Z.to_N (48 + d mod 10)).

(** The [width] low decimal digits of [n], zero padded. *)
Fixpoint pad (width : nat) (n : Z) : string :=
  match width with
  | O => EmptyString
  | S w => pad w (n / 10) +:+ String (digit_char n) EmptyString
  end.

(** The date part of the ISO format: [YYYY-MM-DD], or a signed year of six
    digits outside 0..9999. *)
Definition isoDate (t : Z) : string :=
  let '(y, m, d) := civil_from_days (t / msPerDay) in
  let year :=
    if (0 <=? y) && (y <=? 9999) then pad 4 y
    else (if y <? 0 then "-" else "+") +:+ pad 6 (Z.abs y) in
  year +:+ "-" +:+ pad 2 m +:+ "-" +:+ pad 2 d.

Definition isoTime (t : Z) : string :=
  let ms := t mod msPerDay in
  pad 2 (ms / 3600000) +:+ ":" +:+ pad 2 (ms / 60000 mod 60) +:+ ":"
  +:+ pad 2 (ms / 1000 mod 60) +:+ "." +:+ pad 3 (ms mod 1000).

(** [Date.prototype.toISOString]. *)
Definition toISOString (t : Z) : string :=
  isoDate t +:+ "T" +:+ isoTime t +:+ "Z".

(** *** Values

    The values the actions handle: what [FormData.get] returns ([null], a
    string or a [File]), numbers, and [undefined]. *)

Inductive Value : Type :=
| undefined
| null
| VString (s : string)
| VNumber (n : Number)
| VFile (name : string).

(** ToNumber: a [File] is an object whose primitive is the string
    ["[object File]"], not a numeric literal. *)
Definition ToNumber (v : Value) : Number :=
  match v with
  | undefined => NaN
  | null => pos_zero
  | VString s => StringToNumber s
  | VNumber n => n
  | VFile _ => NaN
  end.

(** [a * b] on values. *)
Definition times (a b : Value) : Value := VNumber (mul (ToNumber a) (ToNumber b)).

(** [list[i]], [undefined] out of range. *)
Definition index (l : list string) (i : nat) : Value :=
  match l !! i with
  | Some s => VString s
  | None => undefined
  end.

(** *** FormData *)

Inductive FormDataEntryValue : Type :=
| EntryString (s : string)
| EntryFile (name : string).

Definition FormData : Type := list (string * FormDataEntryValue).

Definition of_entry (e : FormDataEntryValue) : Value :=
  match e with
  | EntryString s => VString s
  | EntryFile n => VFile n
  end.

(** [formData.get(name)]: the first entry of that name, or [null]. *)
Fixpoint get (formData : FormData) (name : string) : Value :=
  match formData with
  | [] => null
  | (k, e) :: rest => if bool_decide (k = name) then of_entry e else get rest name
  end.

End JS.

(** ** The zod schema library

    A schema is data that [safeParse] interprets: the embedding keeps the
    schemas of the source as values of [ZodType] and [ZodObject] and gives
    the interpreter.  Messages follow zod 3.23. *)

Module Zod.

Record RawCreateParams : Type := {
  required_error : option string;
  invalid_type_error : option string
}.

Definition no_params : RawCreateParams :=
  {| required_error := None; invalid_type_error := None |}.

Inductive StringCheck : Type :=
| check_trim
| check_min (value : nat) (message : string)
| check_max (value : nat) (message : string)
| check_email (message : string)
| check_url (message : string)
| check_uuid.

Inductive NumberCheck : Type :=
| check_gt (value : JS.Number) (message : string).

Inductive ZodType : Type :=
| ZodString (params : RawCreateParams) (checks : list StringCheck)
| ZodNumber (coerce : bool) (checks : list NumberCheck)
| ZodEnum (values : list string) (params : RawCreateParams).

(** *** Character classes and formats *)

Definition in_range (lo hi : N) (c : ascii) : bool :=
  let n := N_of_ascii c in ((lo <=? n) && (n <=? hi))%N.

Definition is_alpha (c : ascii) : bool := in_range 65 90 c || in_range 97 122 c.
Definition is_digit (c : ascii) : bool := in_range 48 57 c.
Definition is_alnum (c : ascii) : bool := is_alpha c || is_digit c.
Definition is_hex (c : ascii) : bool :=
  is_digit c || in_range 65 70 c || in_range 97 102 c.

Definition one_of (set : string) (c : ascii) : bool :=
  existsb (Ascii.eqb c) (String.list_ascii_of_string set).

Definition all_chars (p : ascii -> bool) (s : string) : bool :=
  forallb p (String.list_ascii_of_string s).

Fixpoint has_dot_dot (s : string) : bool :=
  match s with
  | String "." (String "." _ as s') => true
  | String _ s' => has_dot_dot s'
  | EmptyString => false
  end.

(** A label of the domain: a letter or digit, then letters, digits and
    hyphens. *)
Definition domain_label (l : string) : bool :=
  match l with
  | String c r => is_alnum c && all_chars (fun x => is_alnum x || one_of "-" x) r
  | EmptyString => false
  end.

(** The domain: one label or more, each followed by a dot, then two
    letters or more. *)
Definition email_domain (d : string) : bool :=
  match rev (JS.split "." d) with
  | tld :: label :: labels =>
      (2 <=? String.length tld)%nat && all_chars is_alpha tld
      && forallb domain_label (label :: labels)
  | _ => false
  end.

(** The local part: letters, digits and [_ ' + - .], the last one a
    letter, a digit or one of [_ + -]. *)
Definition email_local (l : string) : bool :=
  match String.rev l with
  | String c r =>
      (is_alnum c || one_of "_+-" c)
      && all_chars (fun x => is_alnum x || one_of "_'+-." x) r
  | EmptyString => false
  end.

(** zod's [emailRegex], case insensitive: no leading dot, no two dots in
    a row, a local part, [@] and a domain. *)
Definition emailRegex (s : string) : bool :=
  match s with
  | String "." _ => false
  | _ =>
      negb (has_dot_dot s)
      && match JS.split "@" s with
         | [l; d] => email_local l && email_domain d
         | _ => false
         end
  end.

(** zod's [uuidRegex]: five groups of 8, 4, 4, 4 and 12 hexadecimal
    digits, joined by hyphens. *)
Definition uuidRegex (s : string) : bool :=
  match JS.split "-" s with
  | [a; b; c; d; e] =>
      forallb (all_chars is_hex) [a; b; c; d; e]
      && bool_decide (String.length <$> [a; b; c; d; e] = [8; 4; 4; 4; 12]%nat)
  | _ => false
  end.

(** *** The URL parser

    [new URL(data)], with no base URL, as far as its scheme and the host
    of a special scheme. *)

(** A C0 control or a space: the parser drops them from both ends of its
    input. *)
Definition is_c0_control_or_space (c : ascii) : bool := in_range 0 32 c.

(** A tab or a newline: the parser drops them wherever they are. *)
Definition is_tab_or_newline (c : ascii) : bool :=
  let n := N_of_ascii c in ((n =? 9) || (n =? 10) || (n =? 13))%N.

Fixpoint strip_leading (s : string) : string :=
  match s with
  | String c s' => if is_c0_control_or_space c then strip_leading s' else s
  | EmptyString => EmptyString
  end.

Fixpoint remove_tab_or_newline (s : string) : string :=
  match s with
  | String c s' =>
      if is_tab_or_newline c then remove_tab_or_newline s'
      else String c (remove_tab_or_newline s')
  | EmptyString => EmptyString
  end.

(** The input as the state machine of the parser reads it. *)
Definition url_input (s : string) : string :=
  remove_tab_or_newline
    (String.rev (strip_leading (String.rev (strip_leading s)))).

Definition to_lower (c : ascii) : ascii :=
  if in_range 65 90 c then ascii_of_N (N_of_ascii c + 32) else c.

(** The scheme state: letters, digits, [+], [-] and [.] up to a colon,
    in lower case, and what follows the colon. *)
Fixpoint scheme_rest (s : string) : option (string * string) :=
  match s with
  | String c s' =>
      if Ascii.eqb c ":" then Some (EmptyString, s')
      else if is_alnum c || one_of "+-." c
      then '(scheme, rest) ← scheme_rest s'; Some (String (to_lower c) scheme, rest)
      else None
  | EmptyString => None
  end.

(** The special schemes whose URL has a host that is not empty. *)
Definition special_with_host : list string := ["http"; "https"; "ws"; "wss"; "ftp"].

(** After a special scheme, slashes and backslashes, however many, lead
    to the authority. *)
Fixpoint skip_slashes (s : string) : string :=
  match s with
  | String c s' => if one_of "\/" c then skip_slashes s' else s
  | EmptyString => EmptyString
  end.

(** The authority ends at a slash, a backslash, [?] or [#]. *)
Fixpoint authority (s : string) : string :=
  match s with
  | String c s' => if one_of "\/?#" c then EmptyString else String c (authority s')
  | EmptyString => EmptyString
  end.

(** The host and the port follow the last [@] of the authority; the host
    ends at the colon of the port.  The parser fails when the host is
    empty. *)
Definition host_is_empty (rest : string) : bool :=
  match List.last (JS.split "@" (authority (skip_slashes rest))) EmptyString with
  | EmptyString => true
  | String c _ => Ascii.eqb c ":"
  end.

(** The [url] check runs [new URL(data)], with no base URL.  The parser
    fails on an input with no scheme, and on an input with one of the
    special schemes above and an empty host: the two failures of this
    model.  Its other failures, on a host or a port that is not well
    formed, are not modelled: a string this model refuses is refused by the
    runtime, and a string it accepts may still be refused there. *)
Definition URL_canParse (s : string) : bool :=
  match url_input s with
  | String c _ as input =>
      is_alpha c
      && match scheme_rest input with
         | Some (scheme, rest) =>
             negb (bool_decide (scheme ∈ special_with_host) && host_is_empty rest)
         | None => false
         end
  | EmptyString => false
  end.

(** *** Issues and messages *)

(** [getParsedType], as a message prints it. *)
Definition parsedType (v : JS.Value) : string :=
  match v with
  | JS.undefined => "undefined"
  | JS.null => "null"
  | JS.VString _ => "string"
  | JS.VNumber n => if JS.isNaN n then "nan" else "number"
  | JS.VFile _ => "object"
  end.

(** The message of an [invalid_type] issue: the schema's own when it gave
    one, the default otherwise. *)
Definition invalid_type (p : RawCreateParams) (expected : string) (v : JS.Value)
  : string :=
  match v with
  | JS.undefined => default "Required" (required_error p)
  | _ => default ("Expected " +:+ expected +:+ ", received " +:+ parsedType v)
           (invalid_type_error p)
  end.

Fixpoint joinValues (values : list string) : string :=
  match values with
  | [] => ""
  | [v] => "'" +:+ v +:+ "'"
  | v :: rest => "'" +:+ v +:+ "' | " +:+ joinValues rest
  end.

(** *** Parsing one value *)

Inductive ParseReturn : Type :=
| OK (value : JS.Value)
| INVALID (messages : list string).

(** The checks of a string schema run in the order of their declaration;
    a failed check adds its issue and the next ones still run. *)
Fixpoint string_checks (checks : list StringCheck) (data : string)
  : string * list string :=
  match checks with
  | [] => (data, [])
  | c :: rest =>
      match c with
      | check_trim => string_checks rest (JS.trim data)
      | _ =>
          let issue :=
            match c with
            | check_min value message =>
                if (String.length data <? value)%nat then [message] else []
            | check_max value message =>
                if (value <? String.length data)%nat then [message] else []
            | check_email message =>
                if emailRegex data then [] else [message]
            | check_url message =>
                if URL_canParse data then [] else [message]
            | check_uuid =>
                if uuidRegex data then [] else ["Invalid uuid"]
            | check_trim => []
            end in
          let '(out, issues) := string_checks rest data in
          (out, issue ++ issues)
      end
  end.

(** [gt]: the value is too small when [data <= value]. *)
Fixpoint number_checks (checks : list NumberCheck) (data : JS.Number)
  : list string :=
  match checks with
  | [] => []
  | check_gt value message :: rest =>
      (if JS.leb data value then [message] else []) ++ number_checks rest data
  end.

Definition parse (t : ZodType) (input : JS.Value) : ParseReturn :=
  match t with
  | ZodString p checks =>
      match input with
      | JS.VString s =>
          match string_checks checks s with
          | (out, []) => OK (JS.VString out)
          | (_, issues) => INVALID issues
          end
      | _ => INVALID [invalid_type p "string" input]
      end
  | ZodNumber coerce checks =>
      let data := if coerce then JS.VNumber (JS.ToNumber input) else input in
      match data with
      | JS.VNumber n =>
          if JS.isNaN n then INVALID [invalid_type no_params "number" data]
          else match number_checks checks n with
               | [] => OK data
               | issues => INVALID issues
               end
      | _ => INVALID [invalid_type no_params "number" data]
      end
  | ZodEnum values p =>
      match input with
      | JS.VString s =>
          if bool_decide (s ∈ values) then OK input
          else INVALID ["Invalid enum value. Expected " +:+ joinValues values
                        +:+ ", received '" +:+ s +:+ "'"]
      | _ => INVALID [invalid_type p (joinValues values) input]
      end
  end.

(** *** Object schemas *)

(** The shape of [z.object]: its keys in the order of declaration. *)
Definition ZodObject : Type := list (string * ZodType).

(** [schema.omit(mask)]: the shape without the keys of the mask. *)
Definition omit (mask : list string) (shape : ZodObject) : ZodObject :=
  filter (fun kt => kt.1 ∉ mask) shape.

(** An issue: the key it is about and its message. *)
Definition ZodIssue : Type := (string * string)%type.

Inductive SafeParseReturn : Type :=
| Success (data : gmap string JS.Value)
| Failure (issues : list ZodIssue).

(** Every key of the shape is parsed, whatever the others gave; a key the
    input lacks reads as [undefined], and keys outside the shape are
    dropped. *)
Fixpoint parse_shape (shape : ZodObject) (input : gmap string JS.Value)
  : gmap string JS.Value * list ZodIssue :=
  match shape with
  | [] => (∅, [])
  | (key, t) :: rest =>
      let '(data, issues) := parse_shape rest input in
      match parse t (default JS.undefined (input !! key)) with
      | OK v => (<[key := v]> data, issues)
      | INVALID messages => (data, (pair key <$> messages) ++ issues)
      end
  end.

Definition safeParse (shape : ZodObject) (input : gmap string JS.Value)
  : SafeParseReturn :=
  match parse_shape shape input with
  | (data, []) => Success data
  | (_, issues) => Failure issues
  end.

(** [error.flatten().fieldErrors]: for each key, its messages in order. *)
Definition fieldErrors (issues : list ZodIssue) : gmap string (list string) :=
  fold_left (fun errors '(key, message) =>
               <[key := default [] (errors !! key) ++ [message]]> errors)
            issues ∅.

(** [data.key]. *)
Definition prop (data : gmap string JS.Value) (key : string) : JS.Value :=
  default JS.undefined (data !! key).

End Zod.

(** ** The store

    The schema and the store are not among the sources.  The tables, their
    keys and what the statements do to them follow the spec: tables
    [invoices(customer_id, amount, status, date)] and
    [customers(id, name, email)], each row under its identifier; an insert
    that does nothing on a collision when it carries a conflict clause;
    updates and deletes that leave the table alone when no row has the
    identifier; an invoice row that refers to a stored customer and holds
    its amount as a whole number of minor units. *)

Module Sql.

Record InvoiceRow : Type := {
  customer_id : JS.Value;
  amount : JS.Value;
  status : JS.Value;
  date : JS.Value
}.

Record CustomerRow : Type := {
  name : JS.Value;
  email : JS.Value
}.

(** Modelled from the spec: the tables of the store, whose schema is not
    in the sources.  A table maps the identifier of a row, its primary
    key, to the row. *)
Record Store : Type := {
  invoices : gmap string InvoiceRow;
  customers : gmap string CustomerRow
}.

(** The five statements of the source, each with the values interpolated
    into its template, in the order of the template. *)
Inductive Statement : Type :=
| INSERT_INTO_invoices (customer_id amount status date : JS.Value)
| UPDATE_invoices (customer_id amount status : JS.Value) (id : string)
| DELETE_FROM_invoices (id : string)
| INSERT_INTO_customers (id : string) (name email : JS.Value)
| UPDATE_customers (name email : JS.Value) (id : string).

(** The column of the [ON CONFLICT (...) DO NOTHING] clause of a
    statement's template, when it has one. *)
Definition on_conflict (stmt : Statement) : option string :=
  match stmt with
  | INSERT_INTO_customers _ _ _ => Some "id"
  | _ => None
  end.

(** Modelled from the spec: what the store does with an insert under the
    key [id].  On a collision, nothing happens under a conflict clause and
    the statement fails without one. *)
Definition insert {Row : Type} (clause : option string) (id : string) (row : Row)
  (table : gmap string Row) : option (gmap string Row) :=
  match table !! id with
  | None => Some (<[id := row]> table)
  | Some _ => match clause with Some _ => Some table | None => None end
  end.

(** Modelled from the spec: what the store asks of an invoice row, beyond
    its key.  The customer of the row is the identifier of a stored
    customer, a rule the spec leaves to the store, and the amount is a
    whole number, the store holding integer minor units. *)
Definition admissible (customer_id amount : JS.Value) (db : Store) : bool :=
  match customer_id, amount with
  | JS.VString id, JS.VNumber n =>
      bool_decide (is_Some (customers db !! id)) && JS.isInteger n
  | _, _ => false
  end.

(** Modelled from the spec: what the store, which is not in the sources,
    does with a statement; [None] when it refuses the statement.
    [generated] is the identifier the store gives a row inserted without
    one.  The store refuses an invoice row that is not [admissible], on an
    insert and on the update of a stored row; an update or a delete under
    an identifier of no row changes nothing and is no failure. *)
Definition exec (generated : string) (stmt : Statement) (db : Store)
  : option Store :=
  match stmt with
  | INSERT_INTO_invoices c a s d =>
      let row := {| customer_id := c; amount := a; status := s; date := d |} in
      if admissible c a db then
        table ← insert (on_conflict stmt) generated row (invoices db);
        Some {| invoices := table; customers := customers db |}
      else None
  | UPDATE_invoices c a s id =>
      let set row :=
        {| customer_id := c; amount := a; status := s; date := date row |} in
      match invoices db !! id with
      | Some _ =>
          if admissible c a db then
            Some {| invoices := alter set id (invoices db);
                    customers := customers db |}
          else None
      | None => Some db
      end
  | DELETE_FROM_invoices id =>
      Some {| invoices := delete id (invoices db); customers := customers db |}
  | INSERT_INTO_customers id n e =>
      let row := {| name := n; email := e |} in
      table ← insert (on_conflict stmt) id row (customers db);
      Some {| invoices := invoices db; customers := table |}
  | UPDATE_customers n e id =>
      Some {| invoices := invoices db;
              customers := alter (fun _ => {| name := n; email := e |}) id (customers db) |}
  end.

End Sql.

(** ** Effects

    What an action reads from its environment, what it changes, and how it
    ends. *)

(** What a call can throw.  [redirect] ends an action by throwing
    [NEXT_REDIRECT], which the framework turns into the navigation; an
    [AuthError] carries its [type]. *)
Inductive Exn : Type :=
| NEXT_REDIRECT (url : string)
| DatabaseError
| AuthError (type : string)
| OtherError (name : string).

Record Env : Type := {
  (** the time value [new Date()] reads *)
  now : Z;
  (** what [crypto.randomUUID()] returns *)
  randomUUID : string;
  (** the identifier the store gives a new invoice *)
  generated_id : string;
  (** the storage client fails: the call to [sql] throws *)
  storage_fault : bool;
  (** what [signIn] throws, if anything *)
  signIn_outcome : string -> JS.FormData -> option Exn
}.

Record World : Type := {
  (** the store *)
  db : Sql.Store;
  (** the statements sent to the store, the last one first *)
  queries : list Sql.Statement;
  (** the paths whose cache was invalidated, the last one first *)
  revalidated : list string
}.

Inductive Completion (A : Type) : Type :=
| Normal (value : A)
| Throw (e : Exn).
Arguments Normal {A} value.
Arguments Throw {A} e.

Definition M (A : Type) : Type := World -> Completion A * World.

#[global] Instance M_ret : MRet M := fun A a w => (Normal a, w).

#[global] Instance M_bind : MBind M := fun A B f m w =>
  match m w with
  | (Normal a, w') => f a w'
  | (Throw e, w') => (Throw e, w')
  end.

Definition throw {A : Type} (e : Exn) : M A := fun w => (Throw e, w).

(** [try { body } catch (error) { handler }]. *)
Definition try_catch {A : Type} (body : M A) (handler : Exn -> M A) : M A :=
  fun w =>
    match body w with
    | (Normal a, w') => (Normal a, w')
    | (Throw e, w') => handler e w'
    end.

Section Effects.

Variable env : Env.

(** The tagged template [sql]: the statement is sent, and the call throws
    when the client fails or the store refuses the statement. *)
Definition sql (stmt : Sql.Statement) : M unit := fun w =>
  let sent := {| db := db w; queries := stmt :: queries w;
                 revalidated := revalidated w |} in
  if storage_fault env then (Throw DatabaseError, sent)
  else match Sql.exec (generated_id env) stmt (db w) with
       | Some db' => (Normal (), {| db := db'; queries := queries sent;
                                    revalidated := revalidated sent |})
       | None => (Throw DatabaseError, sent)
       end.

Definition revalidatePath (path : string) : M unit := fun w =>
  (Normal (), {| db := db w; queries := queries w;
                 revalidated := path :: revalidated w |}).

Definition redirect {A : Type} (url : string) : M A := throw (NEXT_REDIRECT url).

Definition signIn (provider : string) (formData : JS.FormData) : M unit :=
  match signIn_outcome env provider formData with
  | Some e => throw e
  | None => mret ()
  end.

End Effects.

(** ** The actions *)

(** What the form actions return: [{errors, message}] or [{message}]. *)
Record State : Type := {
  errors : option (gmap string (list string));
  message : string
}.

Definition FormSchema : Zod.ZodObject :=
  [ ("id", Zod.ZodString Zod.no_params []);
    ("customerId",
     Zod.ZodString {| Zod.required_error := None;
                      Zod.invalid_type_error := Some "Please select a customer." |} []);
    ("amount",
     Zod.ZodNumber true
       [Zod.check_gt (JS.of_Z 0) "Please enter an amount greater than $0."]);
    ("status",
     Zod.ZodEnum ["pending"; "paid"]
       {| Zod.required_error := None;
          Zod.invalid_type_error := Some "Please select an invoice status." |});
    ("date", Zod.ZodString Zod.no_params []) ].

Definition CreateInvoice : Zod.ZodObject := Zod.omit ["id"; "date"] FormSchema.

Definition UpdateInvoice : Zod.ZodObject := Zod.omit ["id"; "date"] FormSchema.

Definition FormCustomerSchema : Zod.ZodObject :=
  [ ("id", Zod.ZodString Zod.no_params [Zod.check_trim; Zod.check_uuid]);
    ("name",
     Zod.ZodString {| Zod.required_error := Some "Name is required";
                      Zod.invalid_type_error := Some "Name must be a string" |}
       [Zod.check_trim;
        Zod.check_min 3 "Must be 2 or more characters long";
        Zod.check_max 20 "Must be 20 or fewer characters long"]);
    ("email",
     Zod.ZodString {| Zod.required_error := Some "Email is required";
                      Zod.invalid_type_error := Some "Email must be a string" |}
       [Zod.check_trim; Zod.check_email "Invalid email address"]);
    ("image",
     Zod.ZodString {| Zod.required_error := Some "URL Image is required";
                      Zod.invalid_type_error := Some "URL Image must be a string" |}
       [Zod.check_trim; Zod.check_url "Invalid url"]) ].

Definition CreateCustomer : Zod.ZodObject := Zod.omit ["id"; "image"] FormCustomerSchema.

Definition UpdateCustomer : Zod.ZodObject := Zod.omit ["id"; "image"] FormCustomerSchema.

Section Actions.

Variable env : Env.

Definition createInvoice (prevState : State) (formData : JS.FormData)
  : M (option State) :=
  let validatedFields :=
    Zod.safeParse CreateInvoice
      {[ "customerId" := JS.get formData "customerId";
         "amount" := JS.get formData "amount";
         "status" := JS.get formData "status" ]} in
  match validatedFields with
  | Zod.Failure issues =>
      mret (Some {| errors := Some (Zod.fieldErrors issues);
                    message := "Missing Fields. Failed to Create Invoice." |})
  | Zod.Success data =>
      let customerId := Zod.prop data "customerId" in
      let amount := Zod.prop data "amount" in
      let status := Zod.prop data "status" in
      let amountInCents := JS.times amount (JS.VNumber (JS.of_Z 100)) in
      let date := JS.index (JS.split "T" (JS.toISOString (now env))) 0 in
      caught ← try_catch
        (sql env (Sql.INSERT_INTO_invoices customerId amountInCents status date);;
         mret None)
        (fun error =>
           mret (Some {| errors := None;
                         message := "Database Error: Failed to Create Invoice." |}));
      match caught with
      | Some state => mret (Some state)
      | None =>
          revalidatePath "/dashboard/invoices";;
          redirect "/dashboard/invoices"
      end
  end.

Definition updateInvoice (id : string) (prevState : State) (formData : JS.FormData)
  : M (option State) :=
  let validatedFields :=
    Zod.safeParse UpdateInvoice
      {[ "customerId" := JS.get formData "customerId";
         "amount" := JS.get formData "amount";
         "status" := JS.get formData "status" ]} in
  match validatedFields with
  | Zod.Failure issues =>
      mret (Some {| errors := Some (Zod.fieldErrors issues);
                    message := "Missing Fields. Failed to Update Invoice." |})
  | Zod.Success data =>
      let customerId := Zod.prop data "customerId" in
      let amount := Zod.prop data "amount" in
      let status := Zod.prop data "status" in
      let amountInCents := JS.times amount (JS.VNumber (JS.of_Z 100)) in
      caught ← try_catch
        (sql env (Sql.UPDATE_invoices customerId amountInCents status id);;
         mret None)
        (fun error =>
           mret (Some {| errors := None;
                         message := "Database Error: Failed to Update Invoice." |}));
      match caught with
      | Some state => mret (Some state)
      | None =>
          revalidatePath "/dashboard/invoices";;
          redirect "/dashboard/invoices"
      end
  end.

Definition deleteInvoice (id : string) : M (option State) :=
  try_catch
    (sql env (Sql.DELETE_FROM_invoices id);;
     revalidatePath "/dashboard/invoices";;
     mret None)
    (fun error =>
       mret (Some {| errors := None;
                     message := "Database Error: Failed to Delete Invoice." |})).

Definition authenticate (prevState : option string) (formData : JS.FormData)
  : M (option string) :=
  try_catch
    (signIn env "credentials" formData;;
     mret None)
    (fun error =>
       match error with
       | AuthError type =>
           if bool_decide (type = "CredentialsSignin")
           then mret (Some "Invalid credentials.")
           else mret (Some "Something went wrong.")
       | _ => throw error
       end).

Definition createCustomer (prevState : State) (formData : JS.FormData)
  : M (option State) :=
  let validateFields :=
    Zod.safeParse CreateCustomer
      {[ "name" := JS.get formData "name";
         "email" := JS.get formData "email" ]} in
  match validateFields with
  | Zod.Failure issues =>
      mret (Some {| errors := Some (Zod.fieldErrors issues);
                    message := "Missing Fields. Failed to Add Customer" |})
  | Zod.Success data =>
      let name := Zod.prop data "name" in
      let email := Zod.prop data "email" in
      let id := randomUUID env in
      caught ← try_catch
        (sql env (Sql.INSERT_INTO_customers id name email);;
         mret None)
        (fun error =>
           mret (Some {| errors := None;
                         message := "Database Error: Failed to Add Customer." |}));
      match caught with
      | Some state => mret (Some state)
      | None =>
          revalidatePath "/dashboard/customers";;
          redirect "/dashboard/customers"
      end
  end.

Definition updateCustomer (id : string) (prevState : State) (formData : JS.FormData)
  : M (option State) :=
  let validatedFields :=
    Zod.safeParse UpdateCustomer
      {[ "name" := JS.get formData "name";
         "email" := JS.get formData "email" ]} in
  match validatedFields with
  | Zod.Failure issues =>
      mret (Some {| errors := Some (Zod.fieldErrors issues);
                    message := "Missing Fields. Failed to Add Customer" |})
  | Zod.Success data =>
      let name := Zod.prop data "name" in
      let email := Zod.prop data "email" in
      caught ← try_catch
        (sql env (Sql.UPDATE_customers name email id);;
         mret None)
        (fun error =>
           mret (Some {| errors := None;
                         message := "Database Error: Failed to Update Invoice." |}));
      match caught with
      | Some state => mret (Some state)
      | None =>
          revalidatePath "/dashboard/customers";;
          redirect "/dashboard/customers"
      end
  end.

End Actions.

(** ** Sample runs

    The inputs the examples below run the actions on. *)

(** A clock at 2026-11-01T00:00:00.000Z, a store that answers. *)
Definition sample_env : Env :=
  {| now := 1793491200000;
     randomUUID := "123e4567-e89b-12d3-a456-426614174000";
     generated_id := "inv-1";
     storage_fault := false;
     signIn_outcome := fun _ _ => None |}.

(** The same, with a storage client that fails. *)
Definition failing_env : Env :=
  {| now := 1793491200000;
     randomUUID := "123e4567-e89b-12d3-a456-426614174000";
     generated_id := "inv-1";
     storage_fault := true;
     signIn_outcome := fun _ _ => None |}.

Definition empty_world : World :=
  {| db := {| Sql.invoices := ∅; Sql.customers := ∅ |};
     queries := [];
     revalidated := [] |}.

(** A world whose store holds the customer of the submissions below and
    no invoice. *)
Definition acme_world : World :=
  {| db := {| Sql.invoices := ∅;
              Sql.customers :=
                {[ "123" := {| Sql.name := JS.VString "Acme";
                               Sql.email := JS.VString "billing@acme.example" |} ]} |};
     queries := [];
     revalidated := [] |}.

Definition initial_state : State := {| errors := Some ∅; message := "" |}.

(** The submission of the spec: customer 123, 45.00, paid. *)
Definition paid_invoice_form : JS.FormData :=
  [ ("customerId", JS.EntryString "123");
    ("amount", JS.EntryString "45.00");
    ("status", JS.EntryString "paid") ].

(** A submission with an amount below zero. *)
Definition refund_form : JS.FormData :=
  [ ("customerId", JS.EntryString "123");
    ("amount", JS.EntryString "-12.50");
    ("status", JS.EntryString "pending") ].

(** A customer whose image is no URL. *)
Definition bad_image_form : JS.FormData :=
  [ ("name", JS.EntryString " Alice ");
    ("email", JS.EntryString "alice@example.com");
    ("image", JS.EntryString "not a url") ].

(** A customer with a name of two letters and an address with no domain. *)
Definition bad_customer_form : JS.FormData :=
  [ ("name", JS.EntryString "  Al  ");
    ("email", JS.EntryString "alice@example") ].

(** A customer that passes validation. *)
Definition customer_form : JS.FormData :=
  [ ("name", JS.EntryString " Alice ");
    ("email", JS.EntryString "alice@example.com") ].

(** A world whose customers table holds a row under the identifier that
    [sample_env] draws. *)
Definition taken_world : World :=
  {| db := {| Sql.invoices := ∅;
              Sql.customers :=
                {[ "123e4567-e89b-12d3-a456-426614174000" :=
                     {| Sql.name := JS.VString "Bob";
                        Sql.email := JS.VString "bob@example.com" |} ]} |};
     queries := [];
     revalidated := [] |}.

(** A provider that refuses the credentials, one that fails in another
    way the library knows, and one that fails outside the library. *)
Definition env_signIn (thrown : option Exn) : Env :=
  {| now := 1793491200000;
     randomUUID := "123e4567-e89b-12d3-a456-426614174000";
     generated_id := "inv-1";
     storage_fault := false;
     signIn_outcome := fun _ _ => thrown |}.

(** An invoice of 19.99. *)
Definition price_form : JS.FormData :=
  [ ("customerId", JS.EntryString "123");
    ("amount", JS.EntryString "19.99");
    ("status", JS.EntryString "pending") ].

(** An invoice with a status outside the enumeration. *)
Definition draft_form : JS.FormData :=
  [ ("customerId", JS.EntryString "123");
    ("amount", JS.EntryString "45.00");
    ("status", JS.EntryString "draft") ].

(** A form with no field at all. *)
Definition empty_form : JS.FormData := [].

(** A world whose invoices table holds one row, under ["inv-7"], and
    whose customers table holds the customer of that row and the one of
    the submissions above. *)
Definition billed_world : World :=
  {| db := {| Sql.invoices :=
                {[ "inv-7" :=
                     {| Sql.customer_id := JS.VString "9";
                        Sql.amount := JS.VNumber (JS.of_Z 100);
                        Sql.status := JS.VString "pending";
                        Sql.date := JS.VString "2024-02-29" |} ]};
              Sql.customers :=
                {[ "9" := {| Sql.name := JS.VString "Bob";
                             Sql.email := JS.VString "bob@example.com" |};
                   "123" := {| Sql.name := JS.VString "Acme";
                               Sql.email := JS.VString "billing@acme.example" |} ]} |};
     queries := [];
     revalidated := [] |}.

(** ** Vocabulary of the statements *)

(** The first code unit of [s] is white space; the last one is. *)
Definition starts_with_space (s : string) : bool :=
  match s with
  | String c _ => JS.is_white_space c
  | EmptyString => false
  end.

Definition ends_with_space (s : string) : bool :=
  starts_with_space (String.rev s).

(** The three ways a form action ends, from the world [w]: validation
    failed and the world is as it was; the call to the store threw, the
    statement was sent and a message comes back with nothing invalidated;
    or the statement went through, [path] was invalidated and the action
    ends in the redirect to [path]. *)
Definition form_action_outcome (path : string) (w : World)
  (result : Completion (option State) * World) : Prop :=
  (∃ fieldErrors text,
     result = (Normal (Some {| errors := Some fieldErrors; message := text |}), w))
  ∨ (∃ stmt text,
       result
       = (Normal (Some {| errors := None; message := text |}),
          {| db := db w; queries := stmt :: queries w;
             revalidated := revalidated w |}))
  ∨ (∃ stmt db',
       result
       = (Throw (NEXT_REDIRECT path),
          {| db := db'; queries := stmt :: queries w;
             revalidated := path :: revalidated w |})).

(** The messages of the issues about one key, in order. *)
Definition messages_for (key : string) (issues : list Zod.ZodIssue) : list string :=
  (filter (fun i => i.1 = key) issues).*2.

(** [schema.shape[key]]: the rule a shape gives a key. *)
Fixpoint rule_of (shape : Zod.ZodObject) (key : string) : option Zod.ZodType :=
  match shape with
  | [] => None
  | (k, t) :: rest => if decide (k = key) then Some t else rule_of rest key
  end.

(** [p] shifted left by [n] bits. *)
Definition shifted (p : positive) (n : nat) : positive := Pos.shiftl_nat p n.

(** No code unit of [s] is [sep]. *)
Fixpoint free_of (sep : ascii) (s : string) : bool :=
  match s with
  | EmptyString => true
  | String c s' => negb (Ascii.eqb c sep) && free_of sep s'
  end.

(** [input[key]]. *)
Definition field (input : gmap string JS.Value) (key : string) : JS.Value :=
  default JS.undefined (input !! key).

(** The object an invoice action hands to [safeParse]. *)
Abbreviation invoice_fields formData :=
  ({[ "customerId" := JS.get formData "customerId";
      "amount" := JS.get formData "amount";
      "status" := JS.get formData "status" ]} : gmap string JS.Value).

(** The object a customer action hands to [safeParse]. *)
Abbreviation customer_fields formData :=
  ({[ "name" := JS.get formData "name";
      "email" := JS.get formData "email" ]} : gmap string JS.Value).

(** The effects, unfolded on a world. *)
Ltac run :=
  unfold mbind, M_bind, mret, M_ret, try_catch, sql, revalidatePath, redirect,
    throw, signIn; simpl.

(** What follows a statement in the four form actions. *)
Ltac after_sql :=
  unfold mbind, M_bind, mret, M_ret, try_catch, revalidatePath, redirect, throw;
  match goal with
  | |- context [sql ?env ?stmt ?w] => destruct (sql env stmt w) as [[[]|?] ?]
  end; reflexivity.

(** ** Facts about the schema interpreter *)

Lemma messages_for_cons key k m (issues : list Zod.ZodIssue) :
  messages_for key ((k, m) :: issues)
  = if decide (k = key) then m :: messages_for key issues
    else messages_for key issues.
Proof.
  unfold messages_for. rewrite filter_cons. simpl.
  by destruct (decide (k = key)).
Qed.

Lemma messages_for_app key (i1 i2 : list Zod.ZodIssue) :
  messages_for key (i1 ++ i2) = messages_for key i1 ++ messages_for key i2.
Proof. unfold messages_for. by rewrite filter_app, fmap_app. Qed.

Lemma messages_for_pair key key' (messages : list string) :
  messages_for key (pair key' <$> messages)
  = if decide (key' = key) then messages else [].
Proof.
  induction messages as [|m ms IH].
  - by destruct (decide _).
  - rewrite fmap_cons, messages_for_cons, IH.
    by destruct (decide (key' = key)).
Qed.

(** [fieldErrors] groups the messages by key: a key has an entry exactly
    when some issue is about it. *)
Lemma fieldErrors_fold key (issues : list Zod.ZodIssue)
    (acc : gmap string (list string)) :
  fold_left (fun errors '(k, message) =>
               <[k := default [] (errors !! k) ++ [message]]> errors)
            issues acc !! key
  = match messages_for key issues with
    | [] => acc !! key
    | ms => Some (default [] (acc !! key) ++ ms)
    end.
Proof.
  revert acc. induction issues as [|[k m] issues IH]; intros acc; [reflexivity|].
  cbn [fold_left]. rewrite IH, messages_for_cons.
  destruct (decide (k = key)) as [->|Hne].
  - rewrite lookup_insert_eq.
    destruct (messages_for key issues) as [|m' ms']; simpl; [done|].
    by rewrite <- app_assoc.
  - by rewrite lookup_insert_ne.
Qed.

Lemma fieldErrors_lookup key (issues : list Zod.ZodIssue) :
  Zod.fieldErrors issues !! key
  = match messages_for key issues with [] => None | ms => Some ms end.
Proof.
  unfold Zod.fieldErrors. rewrite fieldErrors_fold, lookup_empty.
  by destruct (messages_for key issues).
Qed.

(** A rule that fails gives a message. *)
Lemma parse_INVALID_nonempty t v messages :
  Zod.parse t v = Zod.INVALID messages → messages ≠ [].
Proof.
  destruct t as [p checks|coerce checks|values p]; simpl.
  - destruct v; try (intros [= <-]; done).
    destruct (Zod.string_checks checks s) as [out [|i issues]];
      intros [= <-]; done.
  - destruct (if coerce then _ else _); try (intros [= <-]; done).
    destruct (JS.isNaN n); [intros [= <-]; done|].
    destruct (Zod.number_checks checks n); intros [= <-]; done.
  - destruct v; try (intros [= <-]; done).
    case_bool_decide; intros [= <-]; done.
Qed.

Lemma rule_of_None shape key : key ∉ shape.*1 → rule_of shape key = None.
Proof.
  induction shape as [|[k t] rest IH]; [done|].
  csimpl. rewrite not_elem_of_cons. intros [Hne Hnotin].
  destruct (decide (k = key)); [congruence | auto].
Qed.

Lemma parse_shape_None shape input key :
  rule_of shape key = None →
  messages_for key (Zod.parse_shape shape input).2 = []
  ∧ (Zod.parse_shape shape input).1 !! key = None.
Proof.
  induction shape as [|[k t] rest IH]; simpl; [done|].
  destruct (decide (k = key)) as [|Hne]; [done|]. intros Hrest.
  destruct (IH Hrest) as [IHm IHd].
  destruct (Zod.parse_shape rest input) as [data issues].
  destruct (Zod.parse t _) as [v|ms]; simpl in *.
  - by rewrite lookup_insert_ne.
  - split; [|done]. rewrite messages_for_app, messages_for_pair, IHm.
    by destruct (decide (k = key)).
Qed.

(** What [parse_shape] gives for one key of a shape: the value the rule
    of the key parsed, or the messages of its issues. *)
Lemma parse_shape_key shape input key t :
  NoDup shape.*1 →
  rule_of shape key = Some t →
  match Zod.parse t (field input key) with
  | Zod.OK v =>
      messages_for key (Zod.parse_shape shape input).2 = []
      ∧ (Zod.parse_shape shape input).1 !! key = Some v
  | Zod.INVALID messages =>
      messages_for key (Zod.parse_shape shape input).2 = messages
  end.
Proof.
  induction shape as [|[k t'] rest IH]; csimpl; [done|].
  rewrite NoDup_cons. intros [Hnotin Hnodup].
  destruct (decide (k = key)) as [->|Hne].
  - intros [= ->].
    destruct (parse_shape_None rest input key (rule_of_None _ _ Hnotin))
      as [Hm Hd].
    destruct (Zod.parse_shape rest input) as [data issues].
    unfold field. destruct (Zod.parse t _) as [v|ms]; simpl in *.
    + by rewrite lookup_insert_eq.
    + rewrite messages_for_app, messages_for_pair, Hm, app_nil_r.
      by destruct (decide (key = key)).
  - intros Hrule. specialize (IH Hnodup Hrule).
    destruct (Zod.parse_shape rest input) as [data issues].
    destruct (Zod.parse t' _) as [v'|ms']; simpl in *.
    + destruct (Zod.parse t _); [|done]. by rewrite lookup_insert_ne.
    + assert (messages_for key ((pair k <$> ms') ++ issues)
              = messages_for key issues) as ->; [|done].
      rewrite messages_for_app, messages_for_pair.
      by destruct (decide (k = key)).
Qed.

Lemma safeParse_Success shape input data :
  Zod.safeParse shape input = Zod.Success data →
  Zod.parse_shape shape input = (data, []).
Proof.
  unfold Zod.safeParse.
  destruct (Zod.parse_shape shape input) as [d [|i issues]]; congruence.
Qed.

(** A successful parse holds, under each key of the shape, the value the
    rule of the key gave. *)
Lemma safeParse_Success_key shape input data key t :
  NoDup shape.*1 →
  rule_of shape key = Some t →
  Zod.safeParse shape input = Zod.Success data →
  Zod.parse t (field input key) = Zod.OK (Zod.prop data key).
Proof.
  intros Hnodup Hrule Hparse%safeParse_Success.
  pose proof (parse_shape_key shape input key t Hnodup Hrule) as Hkey.
  rewrite Hparse in Hkey. simpl in Hkey.
  destruct (Zod.parse t (field input key)) as [v|ms] eqn:Hp.
  - destruct Hkey as [_ Hd]. unfold Zod.prop. by rewrite Hd.
  - apply parse_INVALID_nonempty in Hp. by subst ms.
Qed.

(** A rule that fails makes the parse fail, with the messages of the rule
    under its key in the field errors. *)
Lemma safeParse_Failure_key shape input key t messages :
  NoDup shape.*1 →
  rule_of shape key = Some t →
  Zod.parse t (field input key) = Zod.INVALID messages →
  ∃ issues, Zod.safeParse shape input = Zod.Failure issues
            ∧ Zod.fieldErrors issues !! key = Some messages
            ∧ messages ≠ [].
Proof.
  intros Hnodup Hrule Hp.
  pose proof (parse_shape_key shape input key t Hnodup Hrule) as Hkey.
  pose proof (parse_INVALID_nonempty _ _ _ Hp) as Hne.
  rewrite Hp in Hkey. unfold Zod.safeParse.
  destruct (Zod.parse_shape shape input) as [data issues]. simpl in Hkey.
  destruct issues as [|i issues].
  - by subst messages.
  - eexists. split; [done|]. split; [|done].
    rewrite fieldErrors_lookup, Hkey. by destruct messages.
Qed.

(** ** Facts about the runtime *)

Lemma free_of_app sep a b :
  free_of sep (a +:+ b) = free_of sep a && free_of sep b.
Proof.
  induction a as [|c a IH]; [done|].
  change (String c a +:+ b) with (String c (a +:+ b)).
  simpl. rewrite IH. by rewrite andb_assoc.
Qed.

(** Splitting at the first separator. *)
Lemma split_first sep a b :
  free_of sep a = true →
  JS.split sep (a +:+ String sep b) = a :: JS.split sep b.
Proof.
  induction a as [|c a IH]; simpl.
  - intros _. change (EmptyString +:+ String sep b) with (String sep b).
    simpl. by rewrite Ascii.eqb_refl.
  - intros [Hc Ha]%andb_true_iff.
    change (String c a +:+ String sep b) with (String c (a +:+ String sep b)).
    simpl. apply negb_true_iff in Hc. rewrite Hc, (IH Ha). done.
Qed.

Lemma digit_char_digit n : Zod.is_digit (JS.digit_char n) = true.
Proof.
  unfold JS.digit_char.
  pose proof (Z.mod_pos_bound n 10 eq_refl) as Hb.
  assert (n mod 10 = 0 ∨ n mod 10 = 1 ∨ n mod 10 = 2 ∨ n mod 10 = 3
          ∨ n mod 10 = 4 ∨ n mod 10 = 5 ∨ n mod 10 = 6 ∨ n mod 10 = 7
          ∨ n mod 10 = 8 ∨ n mod 10 = 9) as Hd by lia.
  repeat (destruct Hd as [->|Hd]; [reflexivity|]). by rewrite Hd.
Qed.

Lemma free_of_digits sep s :
  Zod.is_digit sep = false → Zod.all_chars Zod.is_digit s = true →
  free_of sep s = true.
Proof.
  intros Hsep. unfold Zod.all_chars.
  induction s as [|c s IH]; simpl; [done|].
  intros [Hc Hs]%andb_true_iff. rewrite (IH Hs), andb_true_r.
  apply negb_true_iff, Ascii.eqb_neq. intros ->. congruence.
Qed.

Lemma all_chars_app p a b :
  Zod.all_chars p (a +:+ b) = Zod.all_chars p a && Zod.all_chars p b.
Proof.
  unfold Zod.all_chars. induction a as [|c a IH]; [done|].
  change (String c a +:+ b) with (String c (a +:+ b)).
  simpl. rewrite IH. by rewrite andb_assoc.
Qed.

Lemma pad_digits width n : Zod.all_chars Zod.is_digit (JS.pad width n) = true.
Proof.
  revert n. induction width as [|w IH]; intros n; [done|].
  simpl. rewrite all_chars_app, IH. unfold Zod.all_chars. simpl.
  by rewrite digit_char_digit.
Qed.

Lemma isoDate_free_of_T t : free_of "T" (JS.isoDate t) = true.
Proof.
  unfold JS.isoDate. destruct (JS.civil_from_days _) as [[y m] d].
  assert (∀ w n, free_of "T" (JS.pad w n) = true) as Hpad.
  { intros w n. apply free_of_digits; [done | apply pad_digits]. }
  destruct ((0 <=? y) && (y <=? 9999)); [|destruct (y <? 0)];
    rewrite ?free_of_app, ?Hpad; reflexivity.
Qed.

(** [new Date(t).toISOString().split('T')[0]] is the date of [t]. *)
Lemma toISOString_date t :
  JS.index (JS.split "T" (JS.toISOString t)) 0 = JS.VString (JS.isoDate t).
Proof.
  unfold JS.toISOString.
  change ("T" +:+ JS.isoTime t +:+ "Z") with (String "T" (JS.isoTime t +:+ "Z")).
  by rewrite (split_first _ _ _ (isoDate_free_of_T t)).
Qed.

(** *** Integers in binary64

    An integer below 2^53 is a number, and so is the product of two
    integers when it is below 2^53: the rounding of [mul] is exact. *)

Lemma digits2_size p : digits2_pos p = Pos.size p.
Proof. induction p; simpl; congruence. Qed.

Lemma digits2_shifted p n :
  Zpos (digits2_pos (shifted p n)) = Zpos (digits2_pos p) + Z.of_nat n.
Proof.
  induction n as [|n IH]; [simpl; lia|].
  change (shifted p (S n)) with (xO (shifted p n)).
  simpl digits2_pos. rewrite Pos2Z.inj_succ, IH. lia.
Qed.

Lemma iter_pos_nat {A} (f : A -> A) p x :
  SpecFloat.iter_pos f p x = Nat.iter (Pos.to_nat p) f x.
Proof.
  revert x. induction p as [p IH|p IH|]; intros x; cbn [SpecFloat.iter_pos].
  - rewrite !IH, Pos2Nat.inj_xI, Nat.iter_succ_r.
    replace (2 * Pos.to_nat p)%nat with (Pos.to_nat p + Pos.to_nat p)%nat by lia.
    by rewrite Nat.iter_add.
  - rewrite !IH, Pos2Nat.inj_xO.
    replace (2 * Pos.to_nat p)%nat with (Pos.to_nat p + Pos.to_nat p)%nat by lia.
    by rewrite Nat.iter_add.
  - done.
Qed.

Lemma shr_shifted p n :
  Nat.iter n shr_1 {| shr_m := Zpos (shifted p n); shr_r := false; shr_s := false |}
  = {| shr_m := Zpos p; shr_r := false; shr_s := false |}.
Proof.
  induction n as [|n IH]; [done|].
  rewrite Nat.iter_succ_r. change (shifted p (S n)) with (xO (shifted p n)).
  simpl. exact IH.
Qed.

Lemma shr_exact p (n : nat) e :
  shr {| shr_m := Zpos (shifted p n); shr_r := false; shr_s := false |} e (Z.of_nat n)
  = ({| shr_m := Zpos p; shr_r := false; shr_s := false |}, e + Z.of_nat n).
Proof.
  destruct n as [|n]; [simpl; f_equal; lia|].
  unfold shr. change (Z.of_nat (S n)) with (Zpos (Pos.of_succ_nat n)).
  cbv beta iota.
  by rewrite iter_pos_nat, SuccNat2Pos.id_succ, shr_shifted.
Qed.

(** Rounding a mantissa that fits is exact. *)
Lemma binary_round_aux_exact s p (j : nat) :
  let d := Zpos (digits2_pos p) in
  d <= 53 ->
  let m := shifted p (Z.to_nat (53 - d)) in
  binary_round_aux JS.prec JS.emax s (Zpos (shifted m j)) (d - 53 - Z.of_nat j) loc_Exact
  = S754_finite s m (d - 53).
Proof.
  intros d Hd m.
  assert (Zpos (digits2_pos m) = 53) as Hm.
  { unfold m. rewrite digits2_shifted. fold d. lia. }
  assert (0 < d) as Hpos by (unfold d; lia).
  unfold binary_round_aux, shr_fexp.
  cbn [Zdigits2 shr_record_of_loc]. rewrite digits2_shifted, Hm.
  replace (fexp JS.prec JS.emax (53 + Z.of_nat j + (d - 53 - Z.of_nat j))
           - (d - 53 - Z.of_nat j)) with (Z.of_nat j)
    by (unfold fexp, emin, JS.prec, JS.emax; lia).
  rewrite shr_exact. cbn [shr_m loc_of_shr_record round_nearest_even Zdigits2].
  rewrite Hm.
  replace (fexp JS.prec JS.emax (53 + (d - 53 - Z.of_nat j + Z.of_nat j))
           - (d - 53 - Z.of_nat j + Z.of_nat j)) with 0
    by (unfold fexp, emin, JS.prec, JS.emax; lia).
  cbn [shr shr_m].
  replace (d - 53 - Z.of_nat j + Z.of_nat j) with (d - 53) by lia.
  destruct (d - 53 <=? JS.emax - JS.prec) eqn:Hle; [done|].
  apply Z.leb_gt in Hle. unfold JS.emax, JS.prec in Hle. lia.
Qed.

Lemma shifted_pow p n : Zpos (shifted p n) = Zpos p * 2 ^ Z.of_nat n.
Proof.
  induction n as [|n IH]; [simpl; lia|].
  change (shifted p (S n)) with (xO (shifted p n)).
  rewrite Pos2Z.inj_xO, IH, Nat2Z.inj_succ, Z.pow_succ_r by lia. lia.
Qed.

Lemma shiftl_shifted p k :
  0 <= k -> Z.shiftl (Zpos p) k = Zpos (shifted p (Z.to_nat k)).
Proof.
  intros Hk. rewrite Z.shiftl_mul_pow2, shifted_pow, Z2Nat.id by lia. done.
Qed.

Lemma shifted_add p n k : shifted (shifted p n) k = shifted p (n + k).
Proof.
  induction k as [|k IH]; [by rewrite Nat.add_0_r|].
  rewrite Nat.add_succ_r.
  change (xO (shifted (shifted p n) k) = xO (shifted p (n + k))).
  by rewrite IH.
Qed.

(** The number of an integer that fits in the mantissa. *)
Lemma of_Z_pos p :
  let d := Zpos (digits2_pos p) in
  d <= 53 ->
  JS.of_Z (Zpos p) = S754_finite false (shifted p (Z.to_nat (53 - d))) (d - 53).
Proof.
  intros d Hd.
  assert (0 < d) as Hpos by (unfold d; lia).
  unfold JS.of_Z, JS.of_ratio, SFdiv_core_binary.
  cbn [Zdigits2 digits2_pos]. fold d.
  replace (Z.min (fexp JS.prec JS.emax (d + 0 - (1 + 0))) (0 - 0)) with (d - 54)
    by (unfold fexp, emin, JS.prec, JS.emax; lia).
  replace (0 - 0 - (d - 54)) with (54 - d) by lia.
  assert (match 54 - d with
          | Z0 => Zpos p
          | Zpos _ => Z.shiftl (Zpos p) (54 - d)
          | Zneg _ => 0
          end = Zpos (shifted (shifted p (Z.to_nat (53 - d))) 1)) as ->.
  { rewrite shifted_add.
    replace (Z.to_nat (53 - d) + 1)%nat with (Z.to_nat (54 - d)) by lia.
    rewrite <- shiftl_shifted by lia. destruct (54 - d) eqn:Hs; (done || lia). }
  pose proof (Z.div_1_r (Zpos (shifted (shifted p (Z.to_nat (53 - d))) 1))) as Hq.
  pose proof (Z.mod_1_r (Zpos (shifted (shifted p (Z.to_nat (53 - d))) 1))) as Hr.
  unfold Z.div, Z.modulo in Hq, Hr.
  destruct (Z.div_eucl _ 1) as [q r]. simpl in Hq, Hr. subst q r.
  change (new_location 1 0) with loc_Exact.
  replace (d - 54) with (d - 53 - Z.of_nat 1) by lia.
  by apply binary_round_aux_exact.
Qed.

Lemma digits2_bounds p :
  let d := Zpos (digits2_pos p) in
  Zpos p < 2 ^ d ∧ 2 ^ d <= 2 * Zpos p.
Proof.
  intros d. unfold d. rewrite digits2_size. split.
  - pose proof (Pos.size_gt p) as H.
    apply Pos2Z.pos_lt_pos in H. by rewrite Pos2Z.inj_pow in H.
  - pose proof (Pos.size_le p) as H.
    apply Pos2Z.pos_le_pos in H. by rewrite Pos2Z.inj_pow in H.
Qed.

Lemma digits2_lt_pow p k :
  0 <= k -> Zpos p < 2 ^ k -> Zpos (digits2_pos p) <= k.
Proof.
  intros Hk Hp. destruct (digits2_bounds p) as [_ Hle].
  apply Z.lt_succ_r, (Z.pow_lt_mono_r_iff 2); [lia | lia |].
  rewrite Z.pow_succ_r by lia. lia.
Qed.

Lemma digits2_mono p q :
  (p <= q)%positive -> Zpos (digits2_pos p) <= Zpos (digits2_pos q).
Proof.
  intros Hpq. destruct (digits2_bounds p) as [_ Hle].
  destruct (digits2_bounds q) as [Hlt _].
  apply digits2_lt_pow; lia.
Qed.

Lemma shifted_mul p q a b :
  (shifted p a * shifted q b)%positive = shifted (p * q) (a + b).
Proof.
  apply Pos2Z.inj. rewrite Pos2Z.inj_mul, !shifted_pow, Pos2Z.inj_mul.
  rewrite Nat2Z.inj_add, Z.pow_add_r by lia. lia.
Qed.

(** The product of two integers whose product fits in the mantissa. *)
Lemma mul_of_Z_pos p q :
  Zpos (p * q) < 2 ^ 53 ->
  JS.mul (JS.of_Z (Zpos p)) (JS.of_Z (Zpos q)) = JS.of_Z (Zpos (p * q)).
Proof.
  intros Hfit.
  pose proof (digits2_lt_pow _ 53 ltac:(lia) Hfit) as Hpq.
  assert (p <= p * q)%positive as Hp by nia.
  assert (q <= p * q)%positive as Hq by nia.
  apply digits2_mono in Hp, Hq.
  rewrite !of_Z_pos by lia.
  unfold JS.mul, SFmul. cbn [xorb].
  set (dp := Zpos (digits2_pos p)) in *.
  set (dq := Zpos (digits2_pos q)) in *.
  set (d := Zpos (digits2_pos (p * q))) in *.
  assert (0 < dp ∧ 0 < dq) as [Hdp Hdq] by (unfold dp, dq; lia).
  rewrite shifted_mul.
  replace (Z.to_nat (53 - dp) + Z.to_nat (53 - dq))%nat
    with (Z.to_nat (53 - d) + Z.to_nat (53 - dp - dq + d))%nat by lia.
  rewrite <- shifted_add.
  replace (dp - 53 + (dq - 53))
    with (d - 53 - Z.of_nat (Z.to_nat (53 - dp - dq + d))) by lia.
  by apply binary_round_aux_exact.
Qed.

(** An integer that fits in the mantissa is an integer number. *)
Lemma isInteger_of_Z_pos p :
  Zpos p < 2 ^ 53 → JS.isInteger (JS.of_Z (Zpos p)) = true.
Proof.
  intros Hfit.
  pose proof (digits2_lt_pow _ 53 ltac:(lia) Hfit) as Hd.
  rewrite of_Z_pos by lia. cbn [JS.isInteger].
  set (d := Zpos (digits2_pos p)) in *.
  destruct (0 <=? d - 53) eqn:He; [done|]. apply Z.leb_gt in He.
  rewrite shifted_pow, Z2Nat.id by lia.
  replace (- (d - 53)) with (53 - d) by lia.
  rewrite Z.mod_mul by lia. done.
Qed.

(** ** The invoice schema *)

Lemma UpdateInvoice_CreateInvoice : UpdateInvoice = CreateInvoice.
Proof. reflexivity. Qed.

Lemma CreateInvoice_NoDup : NoDup CreateInvoice.*1.
Proof. apply (bool_decide_unpack _). by vm_compute. Qed.

(** A string rule with no check takes a string as it is. *)
Lemma parse_string_plain p v :
  Zod.parse (Zod.ZodString p []) v
  = match v with
    | JS.VString _ => Zod.OK v
    | _ => Zod.INVALID [Zod.invalid_type p "string" v]
    end.
Proof. by destruct v. Qed.

(** The coerced number rule with one [gt] check. *)
Lemma parse_number_gt bound message v :
  Zod.parse (Zod.ZodNumber true [Zod.check_gt bound message]) v
  = let n := JS.ToNumber v in
    if JS.isNaN n
    then Zod.INVALID [Zod.invalid_type Zod.no_params "number" (JS.VNumber n)]
    else if JS.leb n bound then Zod.INVALID [message]
         else Zod.OK (JS.VNumber n).
Proof.
  simpl. destruct (JS.isNaN (JS.ToNumber v)); [done|].
  by destruct (JS.leb (JS.ToNumber v) bound).
Qed.

(** What a parse that succeeded says of an invoice submission. *)
Lemma invoice_Success formData data :
  Zod.safeParse CreateInvoice (invoice_fields formData) = Zod.Success data →
  let n := JS.ToNumber (JS.get formData "amount") in
  Zod.prop data "customerId" = JS.get formData "customerId"
  ∧ Zod.prop data "amount" = JS.VNumber n
  ∧ Zod.prop data "status" = JS.get formData "status"
  ∧ (∃ c, JS.get formData "customerId" = JS.VString c)
  ∧ JS.isNaN n = false
  ∧ JS.leb n (JS.of_Z 0) = false
  ∧ (∃ s, JS.get formData "status" = JS.VString s ∧ s ∈ ["pending"; "paid"]).
Proof.
  intros Hparse n.
  pose proof (safeParse_Success_key _ _ _ "customerId" _
                CreateInvoice_NoDup eq_refl Hparse) as Hc.
  pose proof (safeParse_Success_key _ _ _ "amount" _
                CreateInvoice_NoDup eq_refl Hparse) as Ha.
  pose proof (safeParse_Success_key _ _ _ "status" _
                CreateInvoice_NoDup eq_refl Hparse) as Hs.
  change (field (invoice_fields formData) "customerId")
    with (JS.get formData "customerId") in Hc.
  change (field (invoice_fields formData) "amount")
    with (JS.get formData "amount") in Ha.
  change (field (invoice_fields formData) "status")
    with (JS.get formData "status") in Hs.
  rewrite parse_string_plain in Hc. rewrite parse_number_gt in Ha.
  cbv zeta in Ha. fold n in Ha. simpl in Hs.
  destruct (JS.get formData "customerId") as [| |c|?|?]; try discriminate.
  destruct (JS.isNaN n); [discriminate|].
  destruct (JS.leb n (JS.of_Z 0)); [discriminate|].
  destruct (JS.get formData "status") as [| |st|?|?]; try discriminate.
  case_bool_decide as Hin; [|discriminate].
  injection Hc as <-. injection Ha as <-. injection Hs as <-.
  eauto 10.
Qed.

(** ** Invoices *)



(** C2. When the submission passes validation and the call to the store
    throws, [updateInvoice] returns [{message: "Database Error: Failed to
    Update Invoice."}] and nothing else: the statement was sent, no path
    is invalidated, and the action returns instead of redirecting. *)
Theorem updateInvoice_storage_failure env id prevState formData data w e :
  let stmt :=
    Sql.UPDATE_invoices (JS.get formData "customerId")
      (JS.VNumber (JS.mul (JS.ToNumber (JS.get formData "amount")) (JS.of_Z 100)))
      (JS.get formData "status") id in
  Zod.safeParse UpdateInvoice (invoice_fields formData) = Zod.Success data →
  (sql env stmt w).1 = Throw e →
  updateInvoice env id prevState formData w
  = (Normal (Some {| errors := None;
                     message := "Database Error: Failed to Update Invoice." |}),
     {| db := db w; queries := stmt :: queries w; revalidated := revalidated w |}).
Proof.
  intros stmt Hparse Hthrow.
  destruct (invoice_Success _ _ Hparse) as (Hc & Ha & Hs & _).
  unfold updateInvoice. rewrite Hparse. cbv zeta. rewrite Hc, Ha, Hs.
  revert Hthrow. subst stmt. run. destruct (storage_fault env); [done|].
  destruct (Sql.invoices (db w) !! id); [|done].
  by destruct (Sql.admissible _ _ _).
Qed.

Lemma updateInvoice_storage_failure_witness :
  updateInvoice failing_env "inv-1" initial_state paid_invoice_form empty_world
  = (Normal (Some {| errors := None;
                     message := "Database Error: Failed to Update Invoice." |}),
     {| db := db empty_world;
        queries :=
          [ Sql.UPDATE_invoices (JS.VString "123") (JS.VNumber (JS.of_Z 4500))
              (JS.VString "paid") "inv-1" ];
        revalidated := [] |}).
Proof.
  refine (updateInvoice_storage_failure failing_env "inv-1" initial_state
            paid_invoice_form _ empty_world DatabaseError _ _);
    vm_compute; reflexivity.
Defined.

(** [x <= y] is false of NaN. *)
Lemma leb_not_NaN x y : JS.leb x y = true → JS.isNaN x = false.
Proof. by destruct x. Qed.

(** C3. A submission whose amount coerces to a number that is 0 or less
    fails validation in [createInvoice] and in [updateInvoice]: each
    returns the field errors, with the message of the amount rule under
    [amount], and leaves the world as it was: no statement is sent. *)
Theorem invoice_amount_not_positive env id prevState formData w :
  JS.leb (JS.ToNumber (JS.get formData "amount")) (JS.of_Z 0) = true →
  ∃ fieldErrors,
    fieldErrors !! "amount" = Some ["Please enter an amount greater than $0."]
    ∧ createInvoice env prevState formData w
      = (Normal (Some {| errors := Some fieldErrors;
                         message := "Missing Fields. Failed to Create Invoice." |}),
         w)
    ∧ updateInvoice env id prevState formData w
      = (Normal (Some {| errors := Some fieldErrors;
                         message := "Missing Fields. Failed to Update Invoice." |}),
         w).
Proof.
  intros Hle.
  destruct (safeParse_Failure_key CreateInvoice (invoice_fields formData)
              "amount" _ ["Please enter an amount greater than $0."]
              CreateInvoice_NoDup eq_refl)
    as (issues & Hfail & Hlookup & _).
  { change (field (invoice_fields formData) "amount")
      with (JS.get formData "amount").
    rewrite parse_number_gt. cbv zeta.
    by rewrite (leb_not_NaN _ _ Hle), Hle. }
  exists (Zod.fieldErrors issues). split; [done|].
  unfold createInvoice, updateInvoice.
  rewrite UpdateInvoice_CreateInvoice, Hfail. done.
Qed.

Lemma invoice_amount_not_positive_witness :
  ∃ fieldErrors,
    fieldErrors !! "amount" = Some ["Please enter an amount greater than $0."]
    ∧ createInvoice sample_env initial_state refund_form empty_world
      = (Normal (Some {| errors := Some fieldErrors;
                         message := "Missing Fields. Failed to Create Invoice." |}),
         empty_world)
    ∧ updateInvoice sample_env "inv-1" initial_state refund_form empty_world
      = (Normal (Some {| errors := Some fieldErrors;
                         message := "Missing Fields. Failed to Update Invoice." |}),
         empty_world).
Proof.
  apply (invoice_amount_not_positive sample_env "inv-1" initial_state
           refund_form empty_world).
  vm_compute. reflexivity.
Defined.

(** ** Customers *)

Lemma UpdateCustomer_CreateCustomer : UpdateCustomer = CreateCustomer.
Proof. reflexivity. Qed.

Lemma CreateCustomer_NoDup : NoDup CreateCustomer.*1.
Proof. apply (bool_decide_unpack _). by vm_compute. Qed.

(** The rule of [name] on a string: trimmed, then 3 to 20 code units. *)
Lemma parse_name p min_message max_message s :
  Zod.parse (Zod.ZodString p [Zod.check_trim; Zod.check_min 3 min_message;
                              Zod.check_max 20 max_message]) (JS.VString s)
  = let n := String.length (JS.trim s) in
    if (n <? 3)%nat then Zod.INVALID [min_message]
    else if (20 <? n)%nat then Zod.INVALID [max_message]
         else Zod.OK (JS.VString (JS.trim s)).
Proof.
  simpl.
  destruct (String.length (JS.trim s) <? 3)%nat eqn:Hmin;
    destruct (20 <? String.length (JS.trim s))%nat eqn:Hmax; try done.
  apply Nat.ltb_lt in Hmin, Hmax. lia.
Qed.

(** The rule of [email] on a string: trimmed, then the format. *)
Lemma parse_email p message s :
  Zod.parse (Zod.ZodString p [Zod.check_trim; Zod.check_email message])
    (JS.VString s)
  = if Zod.emailRegex (JS.trim s) then Zod.OK (JS.VString (JS.trim s))
    else Zod.INVALID [message].
Proof. simpl. by destruct (Zod.emailRegex (JS.trim s)). Qed.

(** A customer action whose parse failed returns the field errors and
    leaves the world as it was. *)
Lemma customer_Failure env id prevState formData w issues :
  Zod.safeParse CreateCustomer (customer_fields formData) = Zod.Failure issues →
  createCustomer env prevState formData w
  = (Normal (Some {| errors := Some (Zod.fieldErrors issues);
                     message := "Missing Fields. Failed to Add Customer" |}), w)
  ∧ updateCustomer env id prevState formData w
    = (Normal (Some {| errors := Some (Zod.fieldErrors issues);
                       message := "Missing Fields. Failed to Add Customer" |}), w).
Proof.
  intros Hfail. unfold createCustomer, updateCustomer.
  by rewrite UpdateCustomer_CreateCustomer, Hfail.
Qed.

(** C4. In a customer submission, a name whose trimmed length is below 3
    or above 20 fails validation with a field error on [name], and an
    email that, trimmed, does not match the address format fails
    validation with a field error on [email]: [createCustomer] and
    [updateCustomer] return the field errors and send nothing to the
    store. *)
Theorem customer_name_email_rules env id prevState formData w :
  (∀ name,
     JS.get formData "name" = JS.VString name →
     (String.length (JS.trim name) < 3 ∨ 20 < String.length (JS.trim name))%nat →
     ∃ fieldErrors,
       fieldErrors !! "name"
       = Some [if (String.length (JS.trim name) <? 3)%nat
               then "Must be 2 or more characters long"
               else "Must be 20 or fewer characters long"]
       ∧ createCustomer env prevState formData w
         = (Normal (Some {| errors := Some fieldErrors;
                            message := "Missing Fields. Failed to Add Customer" |}), w)
       ∧ updateCustomer env id prevState formData w
         = (Normal (Some {| errors := Some fieldErrors;
                            message := "Missing Fields. Failed to Add Customer" |}), w))
  ∧ (∀ email,
       JS.get formData "email" = JS.VString email →
       Zod.emailRegex (JS.trim email) = false →
       ∃ fieldErrors,
         fieldErrors !! "email" = Some ["Invalid email address"]
         ∧ createCustomer env prevState formData w
           = (Normal (Some {| errors := Some fieldErrors;
                              message := "Missing Fields. Failed to Add Customer" |}), w)
         ∧ updateCustomer env id prevState formData w
           = (Normal (Some {| errors := Some fieldErrors;
                              message := "Missing Fields. Failed to Add Customer" |}), w)).
Proof.
  split.
  - intros name Hname Hlen.
    destruct (safeParse_Failure_key CreateCustomer (customer_fields formData)
                "name" _
                [if (String.length (JS.trim name) <? 3)%nat
                 then "Must be 2 or more characters long"
                 else "Must be 20 or fewer characters long"]
                CreateCustomer_NoDup eq_refl)
      as (issues & Hfail & Hlookup & _).
    { change (field (customer_fields formData) "name")
        with (JS.get formData "name").
      rewrite Hname, parse_name. cbv zeta.
      destruct (String.length (JS.trim name) <? 3)%nat eqn:Hmin; [done|].
      destruct (20 <? String.length (JS.trim name))%nat eqn:Hmax; [done|].
      apply Nat.ltb_ge in Hmin, Hmax. lia. }
    exists (Zod.fieldErrors issues). split; [done|].
    by apply customer_Failure.
  - intros email Hemail Hformat.
    destruct (safeParse_Failure_key CreateCustomer (customer_fields formData)
                "email" _ ["Invalid email address"]
                CreateCustomer_NoDup eq_refl)
      as (issues & Hfail & Hlookup & _).
    { change (field (customer_fields formData) "email")
        with (JS.get formData "email").
      by rewrite Hemail, parse_email, Hformat. }
    exists (Zod.fieldErrors issues). split; [done|].
    by apply customer_Failure.
Qed.

Lemma customer_name_email_rules_witness :
  (∃ fieldErrors,
     fieldErrors !! "name" = Some ["Must be 2 or more characters long"]
     ∧ createCustomer sample_env initial_state bad_customer_form empty_world
       = (Normal (Some {| errors := Some fieldErrors;
                          message := "Missing Fields. Failed to Add Customer" |}),
          empty_world)
     ∧ updateCustomer sample_env "c-1" initial_state bad_customer_form empty_world
       = (Normal (Some {| errors := Some fieldErrors;
                          message := "Missing Fields. Failed to Add Customer" |}),
          empty_world))
  ∧ (∃ fieldErrors,
       fieldErrors !! "email" = Some ["Invalid email address"]
       ∧ createCustomer sample_env initial_state bad_customer_form empty_world
         = (Normal (Some {| errors := Some fieldErrors;
                            message := "Missing Fields. Failed to Add Customer" |}),
            empty_world)
       ∧ updateCustomer sample_env "c-1" initial_state bad_customer_form empty_world
         = (Normal (Some {| errors := Some fieldErrors;
                            message := "Missing Fields. Failed to Add Customer" |}),
            empty_world)).
Proof.
  split.
  - apply (proj1 (customer_name_email_rules sample_env "c-1" initial_state
                    bad_customer_form empty_world) "  Al  ");
      [reflexivity | left; vm_compute; lia].
  - apply (proj2 (customer_name_email_rules sample_env "c-1" initial_state
                    bad_customer_form empty_world) "alice@example");
      reflexivity.
Defined.

(** What a parse that succeeded says of a customer submission. *)
Lemma customer_Success formData data :
  Zod.safeParse CreateCustomer (customer_fields formData) = Zod.Success data →
  ∃ name email,
    JS.get formData "name" = JS.VString name
    ∧ JS.get formData "email" = JS.VString email
    ∧ Zod.prop data "name" = JS.VString (JS.trim name)
    ∧ Zod.prop data "email" = JS.VString (JS.trim email)
    ∧ (3 ≤ String.length (JS.trim name) ≤ 20)%nat
    ∧ Zod.emailRegex (JS.trim email) = true.
Proof.
  intros Hparse.
  pose proof (safeParse_Success_key _ _ _ "name" _
                CreateCustomer_NoDup eq_refl Hparse) as Hn.
  pose proof (safeParse_Success_key _ _ _ "email" _
                CreateCustomer_NoDup eq_refl Hparse) as He.
  change (field (customer_fields formData) "name")
    with (JS.get formData "name") in Hn.
  change (field (customer_fields formData) "email")
    with (JS.get formData "email") in He.
  destruct (JS.get formData "name") as [| |name|?|?]; try discriminate.
  destruct (JS.get formData "email") as [| |email|?|?]; try discriminate.
  rewrite parse_name in Hn. rewrite parse_email in He. cbv zeta in Hn.
  destruct (String.length (JS.trim name) <? 3)%nat eqn:Hmin; [discriminate|].
  destruct (20 <? String.length (JS.trim name))%nat eqn:Hmax; [discriminate|].
  destruct (Zod.emailRegex (JS.trim email)) eqn:Hformat; [|discriminate].
  injection Hn as <-. injection He as <-.
  apply Nat.ltb_ge in Hmin, Hmax. exists name, email. repeat split; done.
Qed.

(** C5. When the identifier drawn for a new customer is the key of a row
    of the store, the [INSERT] of [createCustomer], which carries the
    conflict clause on [id], does nothing and is no failure: the store
    after [createCustomer] is the store before, and with a storage client
    that answers the action goes on to invalidate the customers path and
    redirect, as after any insert.  The [INSERT] of invoices carries no
    conflict clause, and the store refuses it on a collision. *)
Theorem createCustomer_id_collision env prevState formData data w existing :
  let stmt :=
    Sql.INSERT_INTO_customers (randomUUID env) (Zod.prop data "name")
      (Zod.prop data "email") in
  Zod.safeParse CreateCustomer (customer_fields formData) = Zod.Success data →
  Sql.customers (db w) !! randomUUID env = Some existing →
  Sql.exec (generated_id env) stmt (db w) = Some (db w)
  ∧ db (createCustomer env prevState formData w).2 = db w
  ∧ (storage_fault env = false →
     createCustomer env prevState formData w
     = (Throw (NEXT_REDIRECT "/dashboard/customers"),
        {| db := db w; queries := stmt :: queries w;
           revalidated := "/dashboard/customers" :: revalidated w |}))
  ∧ Sql.on_conflict stmt = Some "id"
  ∧ (∀ c a s d,
       Sql.on_conflict (Sql.INSERT_INTO_invoices c a s d) = None
       ∧ ∀ store row,
           Sql.invoices store !! generated_id env = Some row →
           Sql.exec (generated_id env) (Sql.INSERT_INTO_invoices c a s d) store
           = None).
Proof.
  intros stmt Hparse Htaken.
  assert (Sql.exec (generated_id env) stmt (db w) = Some (db w)) as Hexec.
  { simpl. unfold Sql.insert. rewrite Htaken. simpl. by destruct (db w). }
  split; [done|].
  assert (∀ fault, storage_fault env = fault →
            db (createCustomer env prevState formData w).2 = db w
            ∧ (fault = false →
               createCustomer env prevState formData w
               = (Throw (NEXT_REDIRECT "/dashboard/customers"),
                  {| db := db w; queries := stmt :: queries w;
                     revalidated := "/dashboard/customers" :: revalidated w |})))
    as Hrun.
  { intros fault Hfault. unfold createCustomer. rewrite Hparse. cbv zeta.
    fold stmt. unfold mbind, M_bind, mret, M_ret, try_catch, sql,
      revalidatePath, redirect, throw.
    rewrite Hfault, Hexec. by destruct fault. }
  destruct (Hrun _ eq_refl) as [Hdb Hok].
  split; [done|]. split; [done|]. split; [done|].
  intros c a s d. split; [done|].
  intros store row Hrow. simpl. unfold Sql.insert. rewrite Hrow.
  by destruct (Sql.admissible _ _ _).
Qed.

Lemma createCustomer_id_collision_witness :
  let stmt :=
    Sql.INSERT_INTO_customers "123e4567-e89b-12d3-a456-426614174000"
      (JS.VString "Alice") (JS.VString "alice@example.com") in
  Sql.exec "inv-1" stmt (db taken_world) = Some (db taken_world)
  ∧ db (createCustomer sample_env initial_state customer_form taken_world).2
    = db taken_world
  ∧ (storage_fault sample_env = false →
     createCustomer sample_env initial_state customer_form taken_world
     = (Throw (NEXT_REDIRECT "/dashboard/customers"),
        {| db := db taken_world; queries := [stmt];
           revalidated := ["/dashboard/customers"] |}))
  ∧ Sql.on_conflict stmt = Some "id"
  ∧ (∀ c a s d,
       Sql.on_conflict (Sql.INSERT_INTO_invoices c a s d) = None
       ∧ ∀ store row,
           Sql.invoices store !! "inv-1" = Some row →
           Sql.exec "inv-1" (Sql.INSERT_INTO_invoices c a s d) store = None).
Proof.
  refine (createCustomer_id_collision sample_env initial_state customer_form
            {[ "name" := JS.VString "Alice";
               "email" := JS.VString "alice@example.com" ]}
            taken_world
            {| Sql.name := JS.VString "Bob";
               Sql.email := JS.VString "bob@example.com" |} _ _);
    vm_compute; reflexivity.
Defined.

(** ** Deleting an invoice *)

(** [deleteInvoice], run on a world: the [DELETE] is sent; a call that
    throws gives the message and leaves the cache alone, a call that
    returns is followed by the invalidation. *)
Lemma deleteInvoice_run env id w :
  deleteInvoice env id w
  = let sent := Sql.DELETE_FROM_invoices id :: queries w in
    if storage_fault env
    then (Normal (Some {| errors := None;
                          message := "Database Error: Failed to Delete Invoice." |}),
          {| db := db w; queries := sent; revalidated := revalidated w |})
    else (Normal None,
          {| db := {| Sql.invoices := delete id (Sql.invoices (db w));
                      Sql.customers := Sql.customers (db w) |};
             queries := sent;
             revalidated := "/dashboard/invoices" :: revalidated w |}).
Proof. unfold deleteInvoice. run. by destruct (storage_fault env). Qed.

(** C6. For an identifier that matches no stored invoice, when the call
    to the store returns, [deleteInvoice] returns nothing (no error
    message), the store is as it was, and the invoices path is
    invalidated all the same. *)
Theorem deleteInvoice_missing_identifier env id w :
  Sql.invoices (db w) !! id = None →
  (sql env (Sql.DELETE_FROM_invoices id) w).1 = Normal () →
  deleteInvoice env id w
  = (Normal None,
     {| db := db w;
        queries := Sql.DELETE_FROM_invoices id :: queries w;
        revalidated := "/dashboard/invoices" :: revalidated w |}).
Proof.
  intros Hmissing. rewrite deleteInvoice_run. unfold sql. simpl.
  destruct (storage_fault env); [done|]. intros _.
  rewrite (delete_id _ _ Hmissing). by destruct (db w).
Qed.

Lemma deleteInvoice_missing_identifier_witness :
  deleteInvoice sample_env "no-such-invoice" empty_world
  = (Normal None,
     {| db := db empty_world;
        queries := [Sql.DELETE_FROM_invoices "no-such-invoice"];
        revalidated := ["/dashboard/invoices"] |}).
Proof.
  apply (deleteInvoice_missing_identifier sample_env "no-such-invoice"
           empty_world); reflexivity.
Defined.

(** C10. [deleteInvoice] never ends in a redirect; it invalidates the
    invoices path exactly when the call to the store returns; and when
    that call throws it returns [{message: "Database Error: Failed to
    Delete Invoice."}] with the invalidated paths as they were. *)
Theorem deleteInvoice_outcomes env id w :
  let stmt := Sql.DELETE_FROM_invoices id in
  let result := deleteInvoice env id w in
  (∀ url, result.1 ≠ Throw (NEXT_REDIRECT url))
  ∧ ((sql env stmt w).1 = Normal ()
     ↔ revalidated result.2 = "/dashboard/invoices" :: revalidated w)
  ∧ ((sql env stmt w).1 ≠ Normal () →
     result.1 = Normal (Some {| errors := None;
                                message := "Database Error: Failed to Delete Invoice." |})
     ∧ revalidated result.2 = revalidated w).
Proof.
  intros stmt result. subst result stmt. rewrite deleteInvoice_run. cbv zeta.
  unfold sql. simpl. destruct (storage_fault env); simpl.
  - split; [done|]. split; [|done]. split; [done|].
    intros Heq. apply (f_equal length) in Heq. simpl in Heq. lia.
  - split; [done|]. split; done.
Qed.

(** ** Signing in *)

(** C7. [authenticate] returns ["Invalid credentials."] when the provider
    throws an [AuthError] of type [CredentialsSignin], returns
    ["Something went wrong."] when it throws an [AuthError] of any other
    type, and throws again whatever else the provider throws; when the
    provider throws nothing it returns nothing. *)
Theorem authenticate_outcomes env prevState formData w :
  authenticate env prevState formData w
  = match signIn_outcome env "credentials" formData with
    | Some (AuthError type) =>
        if bool_decide (type = "CredentialsSignin")
        then (Normal (Some "Invalid credentials."), w)
        else (Normal (Some "Something went wrong."), w)
    | Some thrown => (Throw thrown, w)
    | None => (Normal None, w)
    end.
Proof.
  unfold authenticate. run.
  destruct (signIn_outcome env "credentials" formData) as [[]|]; try done.
  simpl. by case_bool_decide.
Qed.

(** ** The image of a customer *)

(** C9, as stated, fails: the submission [bad_image_form] carries an image
    that the [image] rule of [FormCustomerSchema] refuses, and
    [createCustomer] accepts it: the customer is inserted and the action
    redirects. *)
Lemma customer_image_counterexample :
  (∃ t, rule_of FormCustomerSchema "image" = Some t
        ∧ Zod.parse t (JS.get bad_image_form "image") = Zod.INVALID ["Invalid url"])
  ∧ createCustomer sample_env initial_state bad_image_form empty_world
    = (Throw (NEXT_REDIRECT "/dashboard/customers"),
       {| db :=
            {| Sql.invoices := ∅;
               Sql.customers :=
                 {[ "123e4567-e89b-12d3-a456-426614174000" :=
                      {| Sql.name := JS.VString "Alice";
                         Sql.email := JS.VString "alice@example.com" |} ]} |};
          queries :=
            [ Sql.INSERT_INTO_customers "123e4567-e89b-12d3-a456-426614174000"
                (JS.VString "Alice") (JS.VString "alice@example.com") ];
          revalidated := ["/dashboard/customers"] |}).
Proof.
  split.
  - eexists. split; [reflexivity|]. vm_compute. reflexivity.
  - vm_compute. reflexivity.
Qed.

(** A customer action returns field errors only from a failed parse. *)
Lemma customer_errors env id prevState formData w fieldErrors message w' :
  createCustomer env prevState formData w
  = (Normal (Some {| errors := Some fieldErrors; message := message |}), w')
  ∨ updateCustomer env id prevState formData w
    = (Normal (Some {| errors := Some fieldErrors; message := message |}), w') →
  ∃ issues,
    Zod.safeParse CreateCustomer (customer_fields formData) = Zod.Failure issues
    ∧ fieldErrors = Zod.fieldErrors issues.
Proof.
  unfold createCustomer, updateCustomer.
  rewrite UpdateCustomer_CreateCustomer.
  destruct (Zod.safeParse CreateCustomer _) as [data|issues].
  - cbv zeta. run.
    intros [H|H]; destruct (storage_fault env); simpl in H;
      try discriminate;
      match type of H with
      | context [Sql.insert ?c ?i ?r ?t] => destruct (Sql.insert c i r t)
      end; discriminate.
  - run. intros [[= <- _ _]|[= <- _ _]]; eauto.
Qed.

(** C9, amended.  [createCustomer] and [updateCustomer] parse with
    schemas that omit [image]: no rule is applied to the image of a
    submission, no field error is ever reported under [image], and what
    the actions do depends on the name and the email alone. *)
Theorem customer_image_not_validated env id prevState formData w :
  rule_of CreateCustomer "image" = None
  ∧ rule_of UpdateCustomer "image" = None
  ∧ (∀ fieldErrors message w',
       createCustomer env prevState formData w
       = (Normal (Some {| errors := Some fieldErrors; message := message |}), w')
       ∨ updateCustomer env id prevState formData w
         = (Normal (Some {| errors := Some fieldErrors; message := message |}), w') →
       fieldErrors !! "image" = None)
  ∧ (∀ formData',
       JS.get formData' "name" = JS.get formData "name" →
       JS.get formData' "email" = JS.get formData "email" →
       createCustomer env prevState formData' w
       = createCustomer env prevState formData w
       ∧ updateCustomer env id prevState formData' w
         = updateCustomer env id prevState formData w).
Proof.
  split; [done|]. split; [done|]. split.
  - intros fieldErrors message w' Hret.
    destruct (customer_errors _ _ _ _ _ _ _ _ Hret) as (issues & Hfail & ->).
    rewrite fieldErrors_lookup.
    unfold Zod.safeParse in Hfail.
    pose proof (parse_shape_None CreateCustomer (customer_fields formData)
                  "image" eq_refl) as [Hnone _].
    destruct (Zod.parse_shape CreateCustomer _) as [data [|i issues']];
      [discriminate|].
    injection Hfail as <-. simpl in Hnone. by rewrite Hnone.
  - intros formData' Hname Hemail.
    unfold createCustomer, updateCustomer. by rewrite Hname, Hemail.
Qed.

(** The same customer with an image that is no URL, or with no image,
    gets the same treatment, and no error under [image]. *)
Lemma customer_image_not_validated_witness :
  createCustomer sample_env initial_state bad_image_form empty_world
  = createCustomer sample_env initial_state customer_form empty_world
  ∧ updateCustomer sample_env "c-1" initial_state bad_image_form empty_world
    = updateCustomer sample_env "c-1" initial_state customer_form empty_world.
Proof.
  exact (proj2 (proj2 (proj2
           (customer_image_not_validated sample_env "c-1" initial_state
              customer_form empty_world)))
           bad_image_form eq_refl eq_refl).
Defined.

(** ** The amount in cents *)

(** C8.  The amount in cents that the code computes is no integer for
    the price 19.99.  The submission passes validation, its amount being
    greater than 0; [createInvoice] and [updateInvoice] multiply the
    amount by 100 in binary64 arithmetic and round nothing, and the amount
    of the statement each of them sends is 8791694975696895 * 2^-42, that
    is 1998.9999999999998: no whole number, and not the 1999 cents of the
    price, which is 8791694975696896 * 2^-42. *)
Theorem amount_in_cents_not_integer :
  let cents := S754_finite false 8791694975696895 (-42) in
  (∃ data,
     Zod.safeParse CreateInvoice (invoice_fields price_form) = Zod.Success data)
  ∧ JS.ltb (JS.of_Z 0) (JS.ToNumber (JS.get price_form "amount")) = true
  ∧ queries (createInvoice sample_env initial_state price_form acme_world).2
    = [ Sql.INSERT_INTO_invoices (JS.VString "123") (JS.VNumber cents)
          (JS.VString "pending") (JS.VString "2026-11-01") ]
  ∧ queries (updateInvoice sample_env "inv-7" initial_state price_form
               billed_world).2
    = [ Sql.UPDATE_invoices (JS.VString "123") (JS.VNumber cents)
          (JS.VString "pending") "inv-7" ]
  ∧ JS.isInteger cents = false
  ∧ JS.of_Z 1999 = S754_finite false 8791694975696896 (-42).
Proof.
  split; [eexists; vm_compute; reflexivity|].
  repeat split; vm_compute; reflexivity.
Qed.

(** The same with other prices: 1.10 gives 110.00000000000001 and 0.07
    gives 7.000000000000001. *)
Example other_prices :
  JS.mul (JS.StringToNumber "1.10") (JS.of_Z 100)
  = S754_finite false 7740561859543041 (-46)
  ∧ JS.of_Z 110 = S754_finite false 7740561859543040 (-46)
  ∧ JS.mul (JS.StringToNumber "0.07") (JS.of_Z 100)
    = S754_finite false 7881299347898369 (-50)
  ∧ JS.of_Z 7 = S754_finite false 7881299347898368 (-50).
Proof. repeat split; vm_compute; reflexivity. Qed.

(** ** Sample runs of the sign-in and of the delete *)

(** The redirect that follows a sign-in that worked is no [AuthError]: it
    goes through [authenticate] to the framework. *)
Lemma authenticate_outcomes_witness :
  authenticate (env_signIn (Some (AuthError "CredentialsSignin"))) None []
    empty_world
  = (Normal (Some "Invalid credentials."), empty_world)
  ∧ authenticate (env_signIn (Some (AuthError "CallbackRouteError"))) None []
      empty_world
    = (Normal (Some "Something went wrong."), empty_world)
  ∧ authenticate (env_signIn (Some (NEXT_REDIRECT "/dashboard"))) None []
      empty_world
    = (Throw (NEXT_REDIRECT "/dashboard"), empty_world)
  ∧ authenticate (env_signIn (Some (OtherError "TypeError"))) None []
      empty_world
    = (Throw (OtherError "TypeError"), empty_world).
Proof.
  exact (conj (authenticate_outcomes
                 (env_signIn (Some (AuthError "CredentialsSignin"))) None []
                 empty_world)
        (conj (authenticate_outcomes
                 (env_signIn (Some (AuthError "CallbackRouteError"))) None []
                 empty_world)
        (conj (authenticate_outcomes
                 (env_signIn (Some (NEXT_REDIRECT "/dashboard"))) None []
                 empty_world)
              (authenticate_outcomes
                 (env_signIn (Some (OtherError "TypeError"))) None []
                 empty_world)))).
Defined.

(** With a storage client that fails, the delete gives the message, the
    cache is left alone and nothing redirects. *)
Lemma deleteInvoice_outcomes_witness :
  (deleteInvoice failing_env "inv-1" empty_world).1
  = Normal (Some {| errors := None;
                    message := "Database Error: Failed to Delete Invoice." |})
  ∧ revalidated (deleteInvoice failing_env "inv-1" empty_world).2 = [].
Proof.
  apply (deleteInvoice_outcomes failing_env "inv-1" empty_world). discriminate.
Defined.

(** ** Further properties of the actions *)

(** X1. An invoice submission whose status is neither ["pending"] nor
    ["paid"] fails validation with a field error on [status], in
    [createInvoice] and in [updateInvoice], and nothing is sent to the
    store. *)
Theorem invoice_status_outside_enum env id prevState formData w :
  JS.get formData "status" ≠ JS.VString "pending" →
  JS.get formData "status" ≠ JS.VString "paid" →
  ∃ fieldErrors messages,
    fieldErrors !! "status" = Some messages
    ∧ messages ≠ []
    ∧ createInvoice env prevState formData w
      = (Normal (Some {| errors := Some fieldErrors;
                         message := "Missing Fields. Failed to Create Invoice." |}),
         w)
    ∧ updateInvoice env id prevState formData w
      = (Normal (Some {| errors := Some fieldErrors;
                         message := "Missing Fields. Failed to Update Invoice." |}),
         w).
Proof.
  intros Hpending Hpaid.
  destruct (rule_of CreateInvoice "status") as [t|] eqn:Hrule; [|discriminate].
  assert (∃ messages,
            Zod.parse t (field (invoice_fields formData) "status")
            = Zod.INVALID messages) as [messages Hp].
  { injection Hrule as <-.
    change (field (invoice_fields formData) "status")
      with (JS.get formData "status").
    simpl. destruct (JS.get formData "status") as [| |s|?|?]; eauto.
    case_bool_decide as Hin; eauto.
    apply elem_of_cons in Hin as [->|Hin]; [done|].
    apply elem_of_cons in Hin as [->|Hin]; [done|].
    by apply elem_of_nil in Hin. }
  destruct (safeParse_Failure_key _ _ _ _ _ CreateInvoice_NoDup Hrule Hp)
    as (issues & Hfail & Hlookup & Hne).
  exists (Zod.fieldErrors issues), messages.
  split; [done|]. split; [done|].
  unfold createInvoice, updateInvoice.
  by rewrite UpdateInvoice_CreateInvoice, Hfail.
Qed.

Lemma invoice_status_outside_enum_witness :
  ∃ fieldErrors messages,
    fieldErrors !! "status" = Some messages
    ∧ messages ≠ []
    ∧ createInvoice sample_env initial_state draft_form empty_world
      = (Normal (Some {| errors := Some fieldErrors;
                         message := "Missing Fields. Failed to Create Invoice." |}),
         empty_world)
    ∧ updateInvoice sample_env "inv-1" initial_state draft_form empty_world
      = (Normal (Some {| errors := Some fieldErrors;
                         message := "Missing Fields. Failed to Update Invoice." |}),
         empty_world).
Proof.
  apply (invoice_status_outside_enum sample_env "inv-1" initial_state
           draft_form empty_world); discriminate.
Defined.

(** X2. A customer submission that passes validation, when the storage
    client answers and the drawn identifier is free, leaves one new row
    with the trimmed name and the trimmed email under that identifier;
    the customers path is invalidated and the action ends in the redirect
    to it. *)
Theorem createCustomer_valid_submission env prevState formData data w :
  Zod.safeParse CreateCustomer (customer_fields formData) = Zod.Success data →
  storage_fault env = false →
  Sql.customers (db w) !! randomUUID env = None →
  ∃ name email,
    JS.get formData "name" = JS.VString name
    ∧ JS.get formData "email" = JS.VString email
    ∧ let row := {| Sql.name := JS.VString (JS.trim name);
                    Sql.email := JS.VString (JS.trim email) |} in
      createCustomer env prevState formData w
      = (Throw (NEXT_REDIRECT "/dashboard/customers"),
         {| db := {| Sql.invoices := Sql.invoices (db w);
                     Sql.customers :=
                       <[randomUUID env := row]> (Sql.customers (db w)) |};
            queries :=
              Sql.INSERT_INTO_customers (randomUUID env) (Sql.name row)
                (Sql.email row) :: queries w;
            revalidated := "/dashboard/customers" :: revalidated w |}).
Proof.
  intros Hparse Hfault Hfree.
  destruct (customer_Success _ _ Hparse)
    as (name & email & Hname & Hemail & Hn & He & _).
  exists name, email. split; [done|]. split; [done|]. cbv zeta.
  unfold createCustomer. rewrite Hparse. cbv zeta. rewrite Hn, He.
  run. rewrite Hfault. unfold Sql.insert. simpl. by rewrite Hfree.
Qed.

Lemma createCustomer_valid_submission_witness :
  ∃ name email,
    JS.get customer_form "name" = JS.VString name
    ∧ JS.get customer_form "email" = JS.VString email
    ∧ let row := {| Sql.name := JS.VString (JS.trim name);
                    Sql.email := JS.VString (JS.trim email) |} in
      createCustomer sample_env initial_state customer_form empty_world
      = (Throw (NEXT_REDIRECT "/dashboard/customers"),
         {| db := {| Sql.invoices := ∅;
                     Sql.customers :=
                       <[randomUUID sample_env := row]> ∅ |};
            queries :=
              [Sql.INSERT_INTO_customers (randomUUID sample_env) (Sql.name row)
                 (Sql.email row)];
            revalidated := ["/dashboard/customers"] |}).
Proof.
  refine (createCustomer_valid_submission sample_env initial_state customer_form
            {[ "name" := JS.VString "Alice";
               "email" := JS.VString "alice@example.com" ]}
            empty_world _ _ _);
    vm_compute; reflexivity.
Defined.

(** X3. When the submission passes validation and the call to the store
    throws, [updateCustomer] returns the message that names the invoice,
    ["Database Error: Failed to Update Invoice."], invalidates nothing and
    does not redirect. *)
Theorem updateCustomer_storage_failure env id prevState formData data w e :
  let stmt :=
    Sql.UPDATE_customers (Zod.prop data "name") (Zod.prop data "email") id in
  Zod.safeParse UpdateCustomer (customer_fields formData) = Zod.Success data →
  (sql env stmt w).1 = Throw e →
  updateCustomer env id prevState formData w
  = (Normal (Some {| errors := None;
                     message := "Database Error: Failed to Update Invoice." |}),
     {| db := db w; queries := stmt :: queries w; revalidated := revalidated w |}).
Proof.
  intros stmt Hparse. unfold updateCustomer. rewrite Hparse. cbv zeta.
  subst stmt. run. by destruct (storage_fault env).
Qed.

Lemma updateCustomer_storage_failure_witness :
  updateCustomer failing_env "c-1" initial_state customer_form empty_world
  = (Normal (Some {| errors := None;
                     message := "Database Error: Failed to Update Invoice." |}),
     {| db := db empty_world;
        queries :=
          [ Sql.UPDATE_customers (JS.VString "Alice")
              (JS.VString "alice@example.com") "c-1" ];
        revalidated := [] |}).
Proof.
  refine (updateCustomer_storage_failure failing_env "c-1" initial_state
            customer_form
            {[ "name" := JS.VString "Alice";
               "email" := JS.VString "alice@example.com" ]}
            empty_world DatabaseError _ _);
    vm_compute; reflexivity.
Defined.

(** X4. [updateInvoice] with an identifier that matches no stored invoice
    is a silent no-op on the store: with a submission that passes
    validation and a call to the store that returns, the store is as it
    was, and the action invalidates the invoices path and redirects as
    after any update. *)
Theorem updateInvoice_missing_identifier env id prevState formData data w :
  let stmt :=
    Sql.UPDATE_invoices (JS.get formData "customerId")
      (JS.VNumber (JS.mul (JS.ToNumber (JS.get formData "amount")) (JS.of_Z 100)))
      (JS.get formData "status") id in
  Zod.safeParse UpdateInvoice (invoice_fields formData) = Zod.Success data →
  Sql.invoices (db w) !! id = None →
  (sql env stmt w).1 = Normal () →
  updateInvoice env id prevState formData w
  = (Throw (NEXT_REDIRECT "/dashboard/invoices"),
     {| db := db w; queries := stmt :: queries w;
        revalidated := "/dashboard/invoices" :: revalidated w |}).
Proof.
  intros stmt Hparse Hmissing.
  destruct (invoice_Success _ _ Hparse) as (Hc & Ha & Hs & _).
  unfold updateInvoice. rewrite Hparse. cbv zeta. rewrite Hc, Ha, Hs.
  subst stmt. run. rewrite Hmissing. by destruct (storage_fault env).
Qed.

Lemma updateInvoice_missing_identifier_witness :
  updateInvoice sample_env "no-such-invoice" initial_state paid_invoice_form
    empty_world
  = (Throw (NEXT_REDIRECT "/dashboard/invoices"),
     {| db := db empty_world;
        queries :=
          [ Sql.UPDATE_invoices (JS.VString "123") (JS.VNumber (JS.of_Z 4500))
              (JS.VString "paid") "no-such-invoice" ];
        revalidated := ["/dashboard/invoices"] |}).
Proof.
  refine (updateInvoice_missing_identifier sample_env "no-such-invoice"
            initial_state paid_invoice_form _ empty_world _ _ _);
    vm_compute; reflexivity.
Defined.

(** X5. When the submission passes validation and the call to the store
    throws, [createInvoice] returns [{message: "Database Error: Failed to
    Create Invoice."}], invalidates nothing and does not redirect. *)
Theorem createInvoice_storage_failure env prevState formData data w e :
  let stmt :=
    Sql.INSERT_INTO_invoices (JS.get formData "customerId")
      (JS.VNumber (JS.mul (JS.ToNumber (JS.get formData "amount")) (JS.of_Z 100)))
      (JS.get formData "status") (JS.VString (JS.isoDate (now env))) in
  Zod.safeParse CreateInvoice (invoice_fields formData) = Zod.Success data →
  (sql env stmt w).1 = Throw e →
  createInvoice env prevState formData w
  = (Normal (Some {| errors := None;
                     message := "Database Error: Failed to Create Invoice." |}),
     {| db := db w; queries := stmt :: queries w; revalidated := revalidated w |}).
Proof.
  intros stmt Hparse.
  destruct (invoice_Success _ _ Hparse) as (Hc & Ha & Hs & _).
  unfold createInvoice. rewrite Hparse. cbv zeta.
  rewrite Hc, Ha, Hs, toISOString_date.
  subst stmt. run. unfold Sql.insert.
  destruct (storage_fault env); [done|].
  destruct (Sql.admissible _ _ _); [|done].
  by destruct (Sql.invoices (db w) !! generated_id env).
Qed.

Lemma createInvoice_storage_failure_witness :
  createInvoice failing_env initial_state paid_invoice_form empty_world
  = (Normal (Some {| errors := None;
                     message := "Database Error: Failed to Create Invoice." |}),
     {| db := db empty_world;
        queries :=
          [ Sql.INSERT_INTO_invoices (JS.VString "123")
              (JS.VNumber (JS.of_Z 4500)) (JS.VString "paid")
              (JS.VString "2026-11-01") ];
        revalidated := [] |}).
Proof.
  refine (createInvoice_storage_failure failing_env initial_state
            paid_invoice_form _ empty_world DatabaseError _ _);
    vm_compute; reflexivity.
Defined.

(** ** How the form actions run *)

(** [formData.get] gives [null], a string or a file. *)
Lemma get_cases formData key :
  JS.get formData key = JS.null
  ∨ (∃ s, JS.get formData key = JS.VString s)
  ∨ (∃ n, JS.get formData key = JS.VFile n).
Proof.
  induction formData as [|[k [s|n]] rest IH]; simpl; [by left|..];
    case_bool_decide; eauto.
Qed.

(** The call to [sql] either throws, with the store as it was, or returns
    with the store the statement gives. *)
Lemma sql_cases env stmt w :
  sql env stmt w
  = (Throw DatabaseError,
     {| db := db w; queries := stmt :: queries w; revalidated := revalidated w |})
  ∨ ∃ db',
      Sql.exec (generated_id env) stmt (db w) = Some db'
      ∧ sql env stmt w
        = (Normal (),
           {| db := db'; queries := stmt :: queries w;
              revalidated := revalidated w |}).
Proof.
  unfold sql. destruct (storage_fault env); [by left|].
  destruct (Sql.exec _ _ _) as [db'|]; [right; eauto | by left].
Qed.

Lemma createInvoice_run env prevState formData data w :
  Zod.safeParse CreateInvoice (invoice_fields formData) = Zod.Success data →
  createInvoice env prevState formData w
  = match
      sql env
        (Sql.INSERT_INTO_invoices (JS.get formData "customerId")
           (JS.VNumber
              (JS.mul (JS.ToNumber (JS.get formData "amount")) (JS.of_Z 100)))
           (JS.get formData "status") (JS.VString (JS.isoDate (now env)))) w
    with
    | (Normal _, w') =>
        (Throw (NEXT_REDIRECT "/dashboard/invoices"),
         {| db := db w'; queries := queries w';
            revalidated := "/dashboard/invoices" :: revalidated w' |})
    | (Throw _, w') =>
        (Normal (Some {| errors := None;
                         message := "Database Error: Failed to Create Invoice." |}),
         w')
    end.
Proof.
  intros Hparse.
  destruct (invoice_Success _ _ Hparse) as (Hc & Ha & Hs & _).
  unfold createInvoice. rewrite Hparse. cbv zeta.
  rewrite Hc, Ha, Hs, toISOString_date.
  change (JS.times (JS.VNumber ?a) (JS.VNumber ?b)) with (JS.VNumber (JS.mul a b)).
  after_sql.
Qed.

Lemma updateInvoice_run env id prevState formData data w :
  Zod.safeParse CreateInvoice (invoice_fields formData) = Zod.Success data →
  updateInvoice env id prevState formData w
  = match
      sql env
        (Sql.UPDATE_invoices (JS.get formData "customerId")
           (JS.VNumber
              (JS.mul (JS.ToNumber (JS.get formData "amount")) (JS.of_Z 100)))
           (JS.get formData "status") id) w
    with
    | (Normal _, w') =>
        (Throw (NEXT_REDIRECT "/dashboard/invoices"),
         {| db := db w'; queries := queries w';
            revalidated := "/dashboard/invoices" :: revalidated w' |})
    | (Throw _, w') =>
        (Normal (Some {| errors := None;
                         message := "Database Error: Failed to Update Invoice." |}),
         w')
    end.
Proof.
  intros Hparse.
  destruct (invoice_Success _ _ Hparse) as (Hc & Ha & Hs & _).
  unfold updateInvoice. rewrite UpdateInvoice_CreateInvoice, Hparse. cbv zeta.
  rewrite Hc, Ha, Hs.
  change (JS.times (JS.VNumber ?a) (JS.VNumber ?b)) with (JS.VNumber (JS.mul a b)).
  after_sql.
Qed.

Lemma createCustomer_run env prevState formData data w :
  Zod.safeParse CreateCustomer (customer_fields formData) = Zod.Success data →
  createCustomer env prevState formData w
  = match
      sql env
        (Sql.INSERT_INTO_customers (randomUUID env) (Zod.prop data "name")
           (Zod.prop data "email")) w
    with
    | (Normal _, w') =>
        (Throw (NEXT_REDIRECT "/dashboard/customers"),
         {| db := db w'; queries := queries w';
            revalidated := "/dashboard/customers" :: revalidated w' |})
    | (Throw _, w') =>
        (Normal (Some {| errors := None;
                         message := "Database Error: Failed to Add Customer." |}),
         w')
    end.
Proof.
  intros Hparse. unfold createCustomer. rewrite Hparse. cbv zeta. after_sql.
Qed.

Lemma updateCustomer_run env id prevState formData data w :
  Zod.safeParse CreateCustomer (customer_fields formData) = Zod.Success data →
  updateCustomer env id prevState formData w
  = match
      sql env
        (Sql.UPDATE_customers (Zod.prop data "name") (Zod.prop data "email") id) w
    with
    | (Normal _, w') =>
        (Throw (NEXT_REDIRECT "/dashboard/customers"),
         {| db := db w'; queries := queries w';
            revalidated := "/dashboard/customers" :: revalidated w' |})
    | (Throw _, w') =>
        (Normal (Some {| errors := None;
                         message := "Database Error: Failed to Update Invoice." |}),
         w')
    end.
Proof.
  intros Hparse. unfold updateCustomer.
  rewrite UpdateCustomer_CreateCustomer, Hparse. cbv zeta. after_sql.
Qed.

(** X6. Each of the four form actions ends in one of three ways, whatever
    the form, the store and the environment: the field errors with the
    world untouched; a message, with the one statement sent, the store as
    it was and nothing invalidated; or the redirect to the path of the
    action, with the one statement sent and that path invalidated.
    Nothing else is thrown, and no action redirects without having
    invalidated. *)
Theorem form_actions_outcomes env id prevState formData w :
  form_action_outcome "/dashboard/invoices" w
    (createInvoice env prevState formData w)
  ∧ form_action_outcome "/dashboard/invoices" w
      (updateInvoice env id prevState formData w)
  ∧ form_action_outcome "/dashboard/customers" w
      (createCustomer env prevState formData w)
  ∧ form_action_outcome "/dashboard/customers" w
      (updateCustomer env id prevState formData w).
Proof.
  assert (∀ path text stmt,
            form_action_outcome path w
              match sql env stmt w with
              | (Normal _, w') =>
                  (Throw (NEXT_REDIRECT path),
                   {| db := db w'; queries := queries w';
                      revalidated := path :: revalidated w' |})
              | (Throw _, w') =>
                  (Normal (Some {| errors := None; message := text |}), w')
              end) as Hsent.
  { intros path text stmt. unfold form_action_outcome.
    destruct (sql_cases env stmt w) as [->|(db' & _ & ->)]; eauto 10. }
  repeat split.
  - destruct (Zod.safeParse CreateInvoice (invoice_fields formData))
      as [data|issues] eqn:Hparse.
    + rewrite (createInvoice_run _ _ _ _ _ Hparse). apply Hsent.
    + left. unfold createInvoice. rewrite Hparse. eauto.
  - destruct (Zod.safeParse CreateInvoice (invoice_fields formData))
      as [data|issues] eqn:Hparse.
    + rewrite (updateInvoice_run _ _ _ _ _ _ Hparse). apply Hsent.
    + left. unfold updateInvoice.
      rewrite UpdateInvoice_CreateInvoice, Hparse. eauto.
  - destruct (Zod.safeParse CreateCustomer (customer_fields formData))
      as [data|issues] eqn:Hparse.
    + rewrite (createCustomer_run _ _ _ _ _ Hparse). apply Hsent.
    + left. unfold createCustomer. rewrite Hparse. eauto.
  - destruct (Zod.safeParse CreateCustomer (customer_fields formData))
      as [data|issues] eqn:Hparse.
    + rewrite (updateCustomer_run _ _ _ _ _ _ Hparse). apply Hsent.
    + left. unfold updateCustomer.
      rewrite UpdateCustomer_CreateCustomer, Hparse. eauto.
Qed.

(** ** Which submissions pass *)

(** A number is greater than 0 when it is no NaN and not 0 or less. *)
Lemma gt_zero n :
  JS.ltb (JS.of_Z 0) n = true ↔ JS.isNaN n = false ∧ JS.leb n (JS.of_Z 0) = false.
Proof. destruct n as [[]|[]| |[] m e]; simpl; split; (done || by intros []). Qed.

(** When every rule of a shape takes its value, the parse succeeds. *)
Lemma safeParse_all_OK shape input :
  Forall (fun kt => ∃ v, Zod.parse kt.2 (field input kt.1) = Zod.OK v) shape →
  ∃ data, Zod.safeParse shape input = Zod.Success data.
Proof.
  intros Hall.
  assert ((Zod.parse_shape shape input).2 = []) as Hnil.
  { induction Hall as [|[k t] rest [v Hv] _ IH]; [done|].
    simpl in *. unfold field in Hv.
    destruct (Zod.parse_shape rest input) as [data issues]. by rewrite Hv. }
  unfold Zod.safeParse.
  destruct (Zod.parse_shape shape input) as [data issues].
  simpl in Hnil. subst issues. eauto.
Qed.

(** X7. The invoice schemas take a submission exactly when its customer
    is a string, its amount coerces to a number greater than 0 and its
    status is ["pending"] or ["paid"]; [createInvoice] and [updateInvoice]
    return field errors for every other submission, and for no
    submission of this kind. *)
Theorem invoice_accepted_iff env id prevState formData w :
  let accepted :=
    (∃ c, JS.get formData "customerId" = JS.VString c)
    ∧ JS.ltb (JS.of_Z 0) (JS.ToNumber (JS.get formData "amount")) = true
    ∧ (JS.get formData "status" = JS.VString "pending"
       ∨ JS.get formData "status" = JS.VString "paid") in
  (accepted
   ↔ ∃ data, Zod.safeParse CreateInvoice (invoice_fields formData) = Zod.Success data)
  ∧ (accepted
     ↔ ∃ data, Zod.safeParse UpdateInvoice (invoice_fields formData) = Zod.Success data)
  ∧ (¬ accepted
     ↔ ∃ fieldErrors text,
         createInvoice env prevState formData w
         = (Normal (Some {| errors := Some fieldErrors; message := text |}), w))
  ∧ (¬ accepted
     ↔ ∃ fieldErrors text,
         updateInvoice env id prevState formData w
         = (Normal (Some {| errors := Some fieldErrors; message := text |}), w)).
Proof.
  intros accepted.
  assert (accepted
          ↔ ∃ data, Zod.safeParse CreateInvoice (invoice_fields formData)
                    = Zod.Success data) as Hiff.
  { split.
    - intros ([c Hc] & [Hnan Hle]%gt_zero & Hs).
      apply safeParse_all_OK. repeat constructor; cbn [fst snd].
      + change (field (invoice_fields formData) "customerId")
          with (JS.get formData "customerId").
        rewrite parse_string_plain, Hc. eauto.
      + change (field (invoice_fields formData) "amount")
          with (JS.get formData "amount").
        rewrite parse_number_gt. cbv zeta. rewrite Hnan, Hle. eauto.
      + change (field (invoice_fields formData) "status")
          with (JS.get formData "status"). destruct Hs as [->| ->]; eauto.
    - intros [data Hparse].
      destruct (invoice_Success _ _ Hparse)
        as (_ & _ & _ & Hc & Hnan & Hle & s & Hs & Hin).
      split; [done|]. split; [by apply gt_zero|].
      rewrite Hs. apply elem_of_cons in Hin as [->|Hin]; [by left|].
      apply elem_of_cons in Hin as [->|Hin]; [by right|].
      by apply elem_of_nil in Hin. }
  split; [done|]. split; [done|].
  destruct (Zod.safeParse CreateInvoice (invoice_fields formData))
    as [data|issues] eqn:Hparse.
  - assert (accepted) as Hacc by (apply Hiff; eauto).
    split; (split; [done|]); intros (fieldErrors & text & Hret); exfalso.
    + rewrite (createInvoice_run _ _ _ _ _ Hparse) in Hret.
      by destruct (sql env _ w) as [[[]|?] ?].
    + rewrite (updateInvoice_run _ _ _ _ _ _ Hparse) in Hret.
      by destruct (sql env _ w) as [[[]|?] ?].
  - assert (¬ accepted) as Hrej.
    { intros Hacc. apply Hiff in Hacc as [data Hdata]. discriminate. }
    unfold createInvoice, updateInvoice.
    rewrite UpdateInvoice_CreateInvoice, Hparse. split; split; eauto.
Qed.

(** X8. The customer schemas take a submission exactly when its name is
    a string of 3 to 20 code units once trimmed and its email is a string
    that, trimmed, matches the address format; [createCustomer] and
    [updateCustomer] return field errors for every other submission, and
    for no submission of this kind. *)
Theorem customer_accepted_iff env id prevState formData w :
  let accepted :=
    (∃ name, JS.get formData "name" = JS.VString name
             ∧ (3 ≤ String.length (JS.trim name) ≤ 20)%nat)
    ∧ (∃ email, JS.get formData "email" = JS.VString email
                ∧ Zod.emailRegex (JS.trim email) = true) in
  (accepted
   ↔ ∃ data, Zod.safeParse CreateCustomer (customer_fields formData) = Zod.Success data)
  ∧ (accepted
     ↔ ∃ data, Zod.safeParse UpdateCustomer (customer_fields formData) = Zod.Success data)
  ∧ (¬ accepted
     ↔ ∃ fieldErrors text,
         createCustomer env prevState formData w
         = (Normal (Some {| errors := Some fieldErrors; message := text |}), w))
  ∧ (¬ accepted
     ↔ ∃ fieldErrors text,
         updateCustomer env id prevState formData w
         = (Normal (Some {| errors := Some fieldErrors; message := text |}), w)).
Proof.
  intros accepted.
  assert (accepted
          ↔ ∃ data, Zod.safeParse CreateCustomer (customer_fields formData)
                    = Zod.Success data) as Hiff.
  { split.
    - intros ((name & Hname & Hlen) & (email & Hemail & Hformat)).
      apply safeParse_all_OK. repeat constructor; cbn [fst snd].
      + change (field (customer_fields formData) "name")
          with (JS.get formData "name").
        rewrite Hname, parse_name. cbv zeta.
        destruct (String.length (JS.trim name) <? 3)%nat eqn:Hmin.
        { apply Nat.ltb_lt in Hmin. lia. }
        destruct (20 <? String.length (JS.trim name))%nat eqn:Hmax.
        { apply Nat.ltb_lt in Hmax. lia. }
        eauto.
      + change (field (customer_fields formData) "email")
          with (JS.get formData "email").
        rewrite Hemail, parse_email, Hformat. eauto.
    - intros [data Hparse].
      destruct (customer_Success _ _ Hparse)
        as (name & email & Hname & Hemail & _ & _ & Hlen & Hformat).
      split; eauto. }
  split; [done|]. split; [done|].
  destruct (Zod.safeParse CreateCustomer (customer_fields formData))
    as [data|issues] eqn:Hparse.
  - assert (accepted) as Hacc by (apply Hiff; eauto).
    split; (split; [done|]); intros (fieldErrors & text & Hret); exfalso.
    + rewrite (createCustomer_run _ _ _ _ _ Hparse) in Hret.
      by destruct (sql env _ w) as [[[]|?] ?].
    + rewrite (updateCustomer_run _ _ _ _ _ _ Hparse) in Hret.
      by destruct (sql env _ w) as [[[]|?] ?].
  - assert (¬ accepted) as Hrej.
    { intros Hacc. apply Hiff in Hacc as [data Hdata]. discriminate. }
    unfold createCustomer, updateCustomer.
    rewrite UpdateCustomer_CreateCustomer, Hparse. split; split; eauto.
Qed.

(** ** The field errors *)

Lemma safeParse_Failure shape input issues :
  Zod.safeParse shape input = Zod.Failure issues →
  (Zod.parse_shape shape input).2 = issues.
Proof.
  unfold Zod.safeParse.
  destruct (Zod.parse_shape shape input) as [d [|i rest]]; [done|].
  by intros [= <-].
Qed.

(** The entry of a key in the field errors is what its rule alone says:
    the messages of the rule when it fails, no entry when it passes. *)
Lemma fieldErrors_key shape input issues key t :
  NoDup shape.*1 →
  rule_of shape key = Some t →
  Zod.safeParse shape input = Zod.Failure issues →
  Zod.fieldErrors issues !! key
  = match Zod.parse t (field input key) with
    | Zod.OK _ => None
    | Zod.INVALID messages => Some messages
    end.
Proof.
  intros Hnodup Hrule Hfail%safeParse_Failure.
  pose proof (parse_shape_key shape input key t Hnodup Hrule) as Hkey.
  rewrite Hfail in Hkey. rewrite fieldErrors_lookup.
  destruct (Zod.parse t (field input key)) as [v|ms] eqn:Hp.
  - destruct Hkey as [-> _]. done.
  - rewrite Hkey. apply parse_INVALID_nonempty in Hp. by destruct ms.
Qed.

(** A key outside the shape has no entry. *)
Lemma fieldErrors_outside shape input issues key :
  rule_of shape key = None →
  Zod.safeParse shape input = Zod.Failure issues →
  Zod.fieldErrors issues !! key = None.
Proof.
  intros Hrule Hfail%safeParse_Failure.
  destruct (parse_shape_None shape input key Hrule) as [Hm _].
  rewrite Hfail in Hm. by rewrite fieldErrors_lookup, Hm.
Qed.

Lemma rule_of_In shape key t :
  rule_of shape key = Some t → key ∈ shape.*1.
Proof.
  induction shape as [|[k t'] rest IH]; [done|]. simpl.
  destruct (decide (k = key)) as [->|Hne]; intros H.
  - apply elem_of_cons. by left.
  - apply elem_of_cons. right. by apply IH.
Qed.

(** X9. When an invoice submission fails validation, the field errors
    [createInvoice] and [updateInvoice] return hold, for each of the
    three fields on its own, the message of its rule when the field is
    wrong and no entry when it is right, and nothing under any other key:
    every wrong field is reported, whatever the other fields are. *)
Theorem invoice_field_errors env id prevState formData w issues :
  Zod.safeParse CreateInvoice (invoice_fields formData) = Zod.Failure issues →
  let fieldErrors := Zod.fieldErrors issues in
  let amount := JS.ToNumber (JS.get formData "amount") in
  fieldErrors !! "customerId"
  = match JS.get formData "customerId" with
    | JS.VString _ => None
    | _ => Some ["Please select a customer."]
    end
  ∧ fieldErrors !! "amount"
    = (if JS.isNaN amount then Some ["Expected number, received nan"]
       else if JS.leb amount (JS.of_Z 0)
            then Some ["Please enter an amount greater than $0."]
            else None)
  ∧ fieldErrors !! "status"
    = match JS.get formData "status" with
      | JS.VString s =>
          if bool_decide (s ∈ ["pending"; "paid"]) then None
          else Some ["Invalid enum value. Expected 'pending' | 'paid', received '"
                     +:+ s +:+ "'"]
      | _ => Some ["Please select an invoice status."]
      end
  ∧ (∀ key, key ∉ ["customerId"; "amount"; "status"] → fieldErrors !! key = None)
  ∧ createInvoice env prevState formData w
    = (Normal (Some {| errors := Some fieldErrors;
                       message := "Missing Fields. Failed to Create Invoice." |}), w)
  ∧ updateInvoice env id prevState formData w
    = (Normal (Some {| errors := Some fieldErrors;
                       message := "Missing Fields. Failed to Update Invoice." |}), w).
Proof.
  intros Hfail fieldErrors amount. subst fieldErrors.
  pose proof (fieldErrors_key _ _ _ "customerId" _ CreateInvoice_NoDup eq_refl Hfail)
    as Hc.
  pose proof (fieldErrors_key _ _ _ "amount" _ CreateInvoice_NoDup eq_refl Hfail)
    as Ha.
  pose proof (fieldErrors_key _ _ _ "status" _ CreateInvoice_NoDup eq_refl Hfail)
    as Hs.
  change (field (invoice_fields formData) "customerId")
    with (JS.get formData "customerId") in Hc.
  change (field (invoice_fields formData) "amount")
    with (JS.get formData "amount") in Ha.
  change (field (invoice_fields formData) "status")
    with (JS.get formData "status") in Hs.
  rewrite parse_string_plain in Hc. rewrite parse_number_gt in Ha.
  cbv zeta in Ha. fold amount in Ha.
  split.
  { rewrite Hc.
    destruct (get_cases formData "customerId") as [->|[[? ->]|[? ->]]]; done. }
  split.
  { rewrite Ha. destruct amount as [?|?| |? ? ?]; try done;
      by destruct (JS.leb _ _). }
  split.
  { rewrite Hs. simpl.
    destruct (get_cases formData "status") as [->|[[s ->]|[? ->]]]; try done.
    by case_bool_decide. }
  split.
  { intros key Hkey. eapply fieldErrors_outside; [|exact Hfail].
    destruct (rule_of CreateInvoice key) as [t|] eqn:Hrule; [|done].
    by apply rule_of_In in Hrule. }
  unfold createInvoice, updateInvoice.
  by rewrite UpdateInvoice_CreateInvoice, Hfail.
Qed.

Lemma invoice_field_errors_witness :
  ∃ fieldErrors,
    fieldErrors !! "customerId" = Some ["Please select a customer."]
    ∧ fieldErrors !! "amount" = Some ["Please enter an amount greater than $0."]
    ∧ fieldErrors !! "status" = Some ["Please select an invoice status."]
    ∧ createInvoice sample_env initial_state empty_form empty_world
      = (Normal (Some {| errors := Some fieldErrors;
                         message := "Missing Fields. Failed to Create Invoice." |}),
         empty_world).
Proof.
  destruct (Zod.safeParse CreateInvoice (invoice_fields empty_form))
    as [data|issues] eqn:Hparse; [discriminate|].
  pose proof (invoice_field_errors sample_env "inv-1" initial_state empty_form
                empty_world issues Hparse) as (Hc & Ha & Hs & _ & Hcreate & _).
  exists (Zod.fieldErrors issues). auto.
Defined.

(** The entries of the two customer fields, each read off its own rule. *)
Lemma customer_fieldErrors formData issues :
  Zod.safeParse CreateCustomer (customer_fields formData) = Zod.Failure issues →
  Zod.fieldErrors issues !! "name"
  = match JS.get formData "name" with
    | JS.VString s =>
        if (String.length (JS.trim s) <? 3)%nat
        then Some ["Must be 2 or more characters long"]
        else if (20 <? String.length (JS.trim s))%nat
             then Some ["Must be 20 or fewer characters long"]
             else None
    | _ => Some ["Name must be a string"]
    end
  ∧ Zod.fieldErrors issues !! "email"
    = match JS.get formData "email" with
      | JS.VString s =>
          if Zod.emailRegex (JS.trim s) then None
          else Some ["Invalid email address"]
      | _ => Some ["Email must be a string"]
      end
  ∧ (∀ key, key ∉ ["name"; "email"] → Zod.fieldErrors issues !! key = None).
Proof.
  intros Hfail.
  pose proof (fieldErrors_key _ _ _ "name" _ CreateCustomer_NoDup eq_refl Hfail)
    as Hn.
  pose proof (fieldErrors_key _ _ _ "email" _ CreateCustomer_NoDup eq_refl Hfail)
    as He.
  change (field (customer_fields formData) "name")
    with (JS.get formData "name") in Hn.
  change (field (customer_fields formData) "email")
    with (JS.get formData "email") in He.
  split.
  { rewrite Hn.
    destruct (get_cases formData "name") as [->|[[s ->]|[? ->]]]; try done.
    rewrite parse_name. cbv zeta.
    destruct (_ <? 3)%nat; [done|]. by destruct (20 <? _)%nat. }
  split.
  { rewrite He.
    destruct (get_cases formData "email") as [->|[[s ->]|[? ->]]]; try done.
    rewrite parse_email. by destruct (Zod.emailRegex _). }
  intros key Hkey. eapply fieldErrors_outside; [|exact Hfail].
  destruct (rule_of CreateCustomer key) as [t|] eqn:Hrule; [|done].
  by apply rule_of_In in Hrule.
Qed.

(** X10. When a customer submission fails validation, the field errors
    [createCustomer] and [updateCustomer] return hold, for the name and
    for the email each on its own, the message of the rule the field
    breaks and no entry when it breaks none, and nothing under any other
    key; both actions give the summary ["Missing Fields. Failed to Add
    Customer"]. *)
Theorem customer_field_errors env id prevState formData w issues :
  Zod.safeParse CreateCustomer (customer_fields formData) = Zod.Failure issues →
  let fieldErrors := Zod.fieldErrors issues in
  fieldErrors !! "name"
  = match JS.get formData "name" with
    | JS.VString s =>
        if (String.length (JS.trim s) <? 3)%nat
        then Some ["Must be 2 or more characters long"]
        else if (20 <? String.length (JS.trim s))%nat
             then Some ["Must be 20 or fewer characters long"]
             else None
    | _ => Some ["Name must be a string"]
    end
  ∧ fieldErrors !! "email"
    = match JS.get formData "email" with
      | JS.VString s =>
          if Zod.emailRegex (JS.trim s) then None
          else Some ["Invalid email address"]
      | _ => Some ["Email must be a string"]
      end
  ∧ (∀ key, key ∉ ["name"; "email"] → fieldErrors !! key = None)
  ∧ createCustomer env prevState formData w
    = (Normal (Some {| errors := Some fieldErrors;
                       message := "Missing Fields. Failed to Add Customer" |}), w)
  ∧ updateCustomer env id prevState formData w
    = (Normal (Some {| errors := Some fieldErrors;
                       message := "Missing Fields. Failed to Add Customer" |}), w).
Proof.
  intros Hfail fieldErrors. subst fieldErrors.
  destruct (customer_fieldErrors _ _ Hfail) as (Hn & He & Hother).
  split; [done|]. split; [done|]. split; [done|].
  by apply customer_Failure.
Qed.

Lemma customer_field_errors_witness :
  ∃ fieldErrors,
    fieldErrors !! "name" = Some ["Name must be a string"]
    ∧ fieldErrors !! "email" = Some ["Email must be a string"]
    ∧ createCustomer sample_env initial_state empty_form empty_world
      = (Normal (Some {| errors := Some fieldErrors;
                         message := "Missing Fields. Failed to Add Customer" |}),
         empty_world).
Proof.
  destruct (Zod.safeParse CreateCustomer (customer_fields empty_form))
    as [data|issues] eqn:Hparse; [discriminate|].
  pose proof (customer_field_errors sample_env "c-1" initial_state empty_form
                empty_world issues Hparse) as (Hn & He & _ & Hcreate & _).
  exists (Zod.fieldErrors issues). auto.
Defined.

(** X11. The messages the customer schema gives for a missing field,
    ["Name is required"], ["Email is required"] and ["URL Image is
    required"], are never returned: a field the form lacks reads as
    [null], not as [undefined], and is reported as a value of the wrong
    type. *)
Theorem customer_required_messages_unused
    env id prevState formData w fieldErrors text w' :
  createCustomer env prevState formData w
  = (Normal (Some {| errors := Some fieldErrors; message := text |}), w')
  ∨ updateCustomer env id prevState formData w
    = (Normal (Some {| errors := Some fieldErrors; message := text |}), w') →
  ∀ key messages,
    fieldErrors !! key = Some messages →
    ("Name is required" ∉ messages)
    ∧ ("Email is required" ∉ messages)
    ∧ ("URL Image is required" ∉ messages).
Proof.
  intros Hret key messages Hlookup.
  destruct (customer_errors _ _ _ _ _ _ _ _ Hret) as (issues & Hfail & ->).
  destruct (customer_fieldErrors _ _ Hfail) as (Hn & He & Hother).
  assert (messages = ["Must be 2 or more characters long"]
          ∨ messages = ["Must be 20 or fewer characters long"]
          ∨ messages = ["Name must be a string"]
          ∨ messages = ["Invalid email address"]
          ∨ messages = ["Email must be a string"]) as Hcases.
  { destruct (decide (key = "name")) as [->|Hname].
    { rewrite Hn in Hlookup.
      destruct (JS.get formData "name"); try (injection Hlookup as <-; eauto 6).
      destruct (_ <? 3)%nat; [injection Hlookup as <-; eauto 6|].
      destruct (20 <? _)%nat; [injection Hlookup as <-; eauto 6|done]. }
    destruct (decide (key = "email")) as [->|Hemail].
    { rewrite He in Hlookup.
      destruct (JS.get formData "email"); try (injection Hlookup as <-; eauto 6).
      destruct (Zod.emailRegex _); [done|injection Hlookup as <-; eauto 6]. }
    rewrite Hother in Hlookup; [done|].
    intros Hin. apply elem_of_cons in Hin as [->|Hin]; [done|].
    apply elem_of_cons in Hin as [->|Hin]; [done|]. by apply elem_of_nil in Hin. }
  destruct Hcases as [->|[->|[->|[->| ->]]]];
    repeat split; by intros Hin%list_elem_of_singleton.
Qed.

Lemma customer_required_messages_unused_witness :
  ("Name is required" ∉ ["Name must be a string"])
  ∧ ("Email is required" ∉ ["Name must be a string"])
  ∧ ("URL Image is required" ∉ ["Name must be a string"]).
Proof.
  apply (customer_required_messages_unused sample_env "c-1" initial_state
           empty_form empty_world
           (Zod.fieldErrors
              [("name", "Name must be a string");
               ("email", "Email must be a string")])
           "Missing Fields. Failed to Add Customer" empty_world
           (or_introl eq_refl) "name").
  reflexivity.
Defined.

(** ** Trimming *)

Lemma string_app_assoc (a b c : string) : (a +:+ b) +:+ c = a +:+ (b +:+ c).
Proof.
  induction a as [|x a IH]; [done|].
  change (String x ((a +:+ b) +:+ c) = String x (a +:+ (b +:+ c))).
  by rewrite IH.
Qed.

Lemma string_app_nil_r (a : string) : a +:+ EmptyString = a.
Proof.
  induction a as [|x a IH]; [done|].
  change (String x (a +:+ EmptyString) = String x a). by rewrite IH.
Qed.

Lemma rev_app_app a b : String.rev_app a b = String.rev a +:+ b.
Proof.
  revert b. induction a as [|x a IH]; intros b; [done|].
  unfold String.rev. simpl. rewrite (IH (String x b)), (IH (String x EmptyString)).
  by rewrite string_app_assoc.
Qed.

Lemma rev_cons x a : String.rev (String x a) = String.rev a +:+ String x EmptyString.
Proof. unfold String.rev at 1. simpl. apply rev_app_app. Qed.

Lemma rev_app a b : String.rev (a +:+ b) = String.rev b +:+ String.rev a.
Proof.
  induction a as [|x a IH].
  - change (EmptyString +:+ b) with b. by rewrite string_app_nil_r.
  - change (String x a +:+ b) with (String x (a +:+ b)).
    by rewrite !rev_cons, IH, string_app_assoc.
Qed.

Lemma rev_involutive a : String.rev (String.rev a) = a.
Proof.
  induction a as [|x a IH]; [done|].
  rewrite rev_cons, rev_app, IH. done.
Qed.

Lemma trimStart_head s : starts_with_space (JS.trimStart s) = false.
Proof.
  induction s as [|c s IH]; [done|]. simpl.
  destruct (JS.is_white_space c) eqn:Hc; [done|]. simpl. done.
Qed.

(** [trimStart] drops a prefix. *)
Lemma trimStart_suffix s : ∃ dropped, s = dropped +:+ JS.trimStart s.
Proof.
  induction s as [|c s [dropped IH]]; [by exists EmptyString|]. simpl.
  destruct (JS.is_white_space c).
  - exists (String c dropped).
    change (String c s = String c (dropped +:+ JS.trimStart s)). by rewrite <- IH.
  - by exists EmptyString.
Qed.

(** A trimmed string has no white space at either end. *)
Lemma trim_ends s :
  starts_with_space (JS.trim s) = false ∧ ends_with_space (JS.trim s) = false.
Proof.
  unfold JS.trim, JS.trimEnd, ends_with_space. split.
  - pose proof (trimStart_head s) as Hhead.
    destruct (trimStart_suffix (String.rev (JS.trimStart s))) as [dropped Hsplit].
    apply (f_equal String.rev) in Hsplit.
    rewrite rev_involutive, rev_app in Hsplit.
    destruct (String.rev (JS.trimStart (String.rev (JS.trimStart s))))
      as [|c kept]; [done|].
    rewrite Hsplit in Hhead. exact Hhead.
  - rewrite rev_involutive. apply trimStart_head.
Qed.

(** ** What reaches the store *)

(** A world is not its own queries with one more. *)
Lemma queries_grow (stmt : Sql.Statement) w : queries w ≠ stmt :: queries w.
Proof. intros H. apply (f_equal length) in H. simpl in H. lia. Qed.

(** The statement a call to [sql] leaves at the head of the queries. *)
Lemma sql_queries env stmt w : queries (sql env stmt w).2 = stmt :: queries w.
Proof. by destruct (sql_cases env stmt w) as [->|(db' & _ & ->)]. Qed.

(** X12. Whatever the form, a statement [createInvoice] or
    [updateInvoice] sends carries validated values only: the customer is
    the submitted string, the status is the submitted one and is
    ["pending"] or ["paid"], the amount is 100 times a submitted amount
    greater than 0, and the date of an insert is the date of the clock,
    never a value of the form. *)
Theorem invoice_statements_validated env id prevState formData w :
  let sent stmt :=
    ∃ c s,
      JS.get formData "customerId" = JS.VString c
      ∧ JS.get formData "status" = JS.VString s
      ∧ s ∈ ["pending"; "paid"]
      ∧ JS.ltb (JS.of_Z 0) (JS.ToNumber (JS.get formData "amount")) = true
      ∧ (stmt
         = Sql.INSERT_INTO_invoices (JS.VString c)
             (JS.VNumber
                (JS.mul (JS.ToNumber (JS.get formData "amount")) (JS.of_Z 100)))
             (JS.VString s) (JS.VString (JS.isoDate (now env)))
         ∨ stmt
           = Sql.UPDATE_invoices (JS.VString c)
               (JS.VNumber
                  (JS.mul (JS.ToNumber (JS.get formData "amount")) (JS.of_Z 100)))
               (JS.VString s) id) in
  (∀ stmt,
     queries (createInvoice env prevState formData w).2 = stmt :: queries w →
     sent stmt)
  ∧ (∀ stmt,
       queries (updateInvoice env id prevState formData w).2 = stmt :: queries w →
       sent stmt).
Proof.
  intros sent.
  destruct (Zod.safeParse CreateInvoice (invoice_fields formData))
    as [data|issues] eqn:Hparse.
  - destruct (invoice_Success _ _ Hparse)
      as (_ & _ & _ & [c Hc] & Hnan & Hle & s & Hs & Hin).
    assert (JS.ltb (JS.of_Z 0) (JS.ToNumber (JS.get formData "amount")) = true)
      as Hgt by by apply gt_zero.
    split; intros stmt.
    + rewrite (createInvoice_run _ _ _ _ _ Hparse).
      pose proof (sql_queries env
        (Sql.INSERT_INTO_invoices (JS.get formData "customerId")
           (JS.VNumber
              (JS.mul (JS.ToNumber (JS.get formData "amount")) (JS.of_Z 100)))
           (JS.get formData "status") (JS.VString (JS.isoDate (now env)))) w)
        as Hq.
      destruct (sql env _ w) as [[[]|?] w']; simpl in *; rewrite Hq;
        intros [= <-]; exists c, s; rewrite Hc, Hs; eauto 10.
    + rewrite (updateInvoice_run _ _ _ _ _ _ Hparse).
      pose proof (sql_queries env
        (Sql.UPDATE_invoices (JS.get formData "customerId")
           (JS.VNumber
              (JS.mul (JS.ToNumber (JS.get formData "amount")) (JS.of_Z 100)))
           (JS.get formData "status") id) w) as Hq.
      destruct (sql env _ w) as [[[]|?] w']; simpl in *; rewrite Hq;
        intros [= <-]; exists c, s; rewrite Hc, Hs; eauto 10.
  - unfold createInvoice, updateInvoice.
    rewrite UpdateInvoice_CreateInvoice, Hparse.
    split; intros stmt Hq; by apply queries_grow in Hq.
Qed.

Lemma invoice_statements_validated_witness :
  ∃ c s,
    JS.get paid_invoice_form "customerId" = JS.VString c
    ∧ JS.get paid_invoice_form "status" = JS.VString s
    ∧ s ∈ ["pending"; "paid"]
    ∧ JS.ltb (JS.of_Z 0) (JS.ToNumber (JS.get paid_invoice_form "amount")) = true
    ∧ (Sql.INSERT_INTO_invoices (JS.VString "123") (JS.VNumber (JS.of_Z 4500))
         (JS.VString "paid") (JS.VString "2026-11-01")
       = Sql.INSERT_INTO_invoices (JS.VString c)
           (JS.VNumber
              (JS.mul (JS.ToNumber (JS.get paid_invoice_form "amount"))
                 (JS.of_Z 100)))
           (JS.VString s) (JS.VString (JS.isoDate (now sample_env)))
       ∨ Sql.INSERT_INTO_invoices (JS.VString "123") (JS.VNumber (JS.of_Z 4500))
           (JS.VString "paid") (JS.VString "2026-11-01")
         = Sql.UPDATE_invoices (JS.VString c)
             (JS.VNumber
                (JS.mul (JS.ToNumber (JS.get paid_invoice_form "amount"))
                   (JS.of_Z 100)))
             (JS.VString s) "inv-1").
Proof.
  apply (proj1 (invoice_statements_validated sample_env "inv-1" initial_state
                  paid_invoice_form empty_world)).
  vm_compute. reflexivity.
Defined.

(** X13. Whatever the form, a statement [createCustomer] or
    [updateCustomer] sends carries validated values only: the name is the
    submitted name trimmed, of 3 to 20 code units and with no white space
    at either end, the email is the submitted email trimmed and matches
    the address format, and the identifier of an insert is the one drawn
    by [crypto.randomUUID]. *)
Theorem customer_statements_validated env id prevState formData w :
  let sent stmt :=
    ∃ name email,
      JS.get formData "name" = JS.VString name
      ∧ JS.get formData "email" = JS.VString email
      ∧ (3 ≤ String.length (JS.trim name) ≤ 20)%nat
      ∧ starts_with_space (JS.trim name) = false
      ∧ ends_with_space (JS.trim name) = false
      ∧ Zod.emailRegex (JS.trim email) = true
      ∧ (stmt
         = Sql.INSERT_INTO_customers (randomUUID env) (JS.VString (JS.trim name))
             (JS.VString (JS.trim email))
         ∨ stmt
           = Sql.UPDATE_customers (JS.VString (JS.trim name))
               (JS.VString (JS.trim email)) id) in
  (∀ stmt,
     queries (createCustomer env prevState formData w).2 = stmt :: queries w →
     sent stmt)
  ∧ (∀ stmt,
       queries (updateCustomer env id prevState formData w).2 = stmt :: queries w →
       sent stmt).
Proof.
  intros sent.
  destruct (Zod.safeParse CreateCustomer (customer_fields formData))
    as [data|issues] eqn:Hparse.
  - destruct (customer_Success _ _ Hparse)
      as (name & email & Hname & Hemail & Hn & He & Hlen & Hformat).
    destruct (trim_ends name) as [Hstart Hend].
    split; intros stmt.
    + rewrite (createCustomer_run _ _ _ _ _ Hparse), Hn, He.
      pose proof (sql_queries env
        (Sql.INSERT_INTO_customers (randomUUID env) (JS.VString (JS.trim name))
           (JS.VString (JS.trim email))) w) as Hq.
      destruct (sql env _ w) as [[[]|?] w']; simpl in *; rewrite Hq;
        intros [= <-]; exists name, email; eauto 12.
    + rewrite (updateCustomer_run _ _ _ _ _ _ Hparse), Hn, He.
      pose proof (sql_queries env
        (Sql.UPDATE_customers (JS.VString (JS.trim name))
           (JS.VString (JS.trim email)) id) w) as Hq.
      destruct (sql env _ w) as [[[]|?] w']; simpl in *; rewrite Hq;
        intros [= <-]; exists name, email; eauto 12.
  - unfold createCustomer, updateCustomer.
    rewrite UpdateCustomer_CreateCustomer, Hparse.
    split; intros stmt Hq; by apply queries_grow in Hq.
Qed.

Lemma customer_statements_validated_witness :
  ∃ name email,
    JS.get customer_form "name" = JS.VString name
    ∧ JS.get customer_form "email" = JS.VString email
    ∧ (3 ≤ String.length (JS.trim name) ≤ 20)%nat
    ∧ starts_with_space (JS.trim name) = false
    ∧ ends_with_space (JS.trim name) = false
    ∧ Zod.emailRegex (JS.trim email) = true
    ∧ (Sql.UPDATE_customers (JS.VString "Alice") (JS.VString "alice@example.com")
         "c-1"
       = Sql.INSERT_INTO_customers (randomUUID sample_env)
           (JS.VString (JS.trim name)) (JS.VString (JS.trim email))
       ∨ Sql.UPDATE_customers (JS.VString "Alice")
           (JS.VString "alice@example.com") "c-1"
         = Sql.UPDATE_customers (JS.VString (JS.trim name))
             (JS.VString (JS.trim email)) "c-1").
Proof.
  apply (proj2 (customer_statements_validated sample_env "c-1" initial_state
                  customer_form empty_world)).
  vm_compute. reflexivity.
Defined.

(** ** How the actions compose *)

(** X14. Creating an invoice and then deleting it is a round trip on the
    store: after a [createInvoice] that ended in its redirect,
    [deleteInvoice] on the identifier the store gave the row, with a
    storage client that answers, returns nothing and leaves the store as
    it was before the creation. *)
Theorem createInvoice_then_deleteInvoice env env' prevState formData w :
  let created := createInvoice env prevState formData w in
  created.1 = Throw (NEXT_REDIRECT "/dashboard/invoices") →
  storage_fault env' = false →
  let deleted := deleteInvoice env' (generated_id env) created.2 in
  deleted.1 = Normal None ∧ db deleted.2 = db w.
Proof.
  intros created Hredirect Hfault deleted. subst deleted created.
  rewrite deleteInvoice_run, Hfault. cbv zeta. split; [done|].
  destruct (Zod.safeParse CreateInvoice (invoice_fields formData))
    as [data|issues] eqn:Hparse.
  - revert Hredirect. rewrite (createInvoice_run _ _ _ _ _ Hparse).
    destruct (sql_cases env
      (Sql.INSERT_INTO_invoices (JS.get formData "customerId")
         (JS.VNumber
            (JS.mul (JS.ToNumber (JS.get formData "amount")) (JS.of_Z 100)))
         (JS.get formData "status") (JS.VString (JS.isoDate (now env)))) w)
      as [->|(db' & Hexec & ->)]; [done|]. intros _.
    simpl in Hexec. unfold Sql.insert in Hexec.
    destruct (Sql.admissible _ _ _); [|done].
    destruct (Sql.invoices (db w) !! generated_id env) eqn:Hfree; [done|].
    injection Hexec as <-. simpl.
    rewrite (delete_insert_id _ _ _ Hfree). by destruct (db w).
  - revert Hredirect. unfold createInvoice. by rewrite Hparse.
Qed.

Lemma createInvoice_then_deleteInvoice_witness :
  (deleteInvoice sample_env "inv-1"
     (createInvoice sample_env initial_state paid_invoice_form billed_world).2).1
  = Normal None
  ∧ db (deleteInvoice sample_env "inv-1"
          (createInvoice sample_env initial_state paid_invoice_form
             billed_world).2).2
    = db billed_world.
Proof.
  apply (createInvoice_then_deleteInvoice sample_env sample_env initial_state
           paid_invoice_form billed_world); reflexivity.
Defined.

(** X15. [updateInvoice] on the identifier of a stored invoice, with a
    submission that passes validation and a call to the store that
    returns, replaces the customer, the amount and the status of that
    row, keeps its date, and leaves every other row and the customers as
    they were. *)
Theorem updateInvoice_existing_row env id prevState formData data w row :
  let stmt :=
    Sql.UPDATE_invoices (JS.get formData "customerId")
      (JS.VNumber (JS.mul (JS.ToNumber (JS.get formData "amount")) (JS.of_Z 100)))
      (JS.get formData "status") id in
  Zod.safeParse UpdateInvoice (invoice_fields formData) = Zod.Success data →
  Sql.invoices (db w) !! id = Some row →
  (sql env stmt w).1 = Normal () →
  let updated := db (updateInvoice env id prevState formData w).2 in
  Sql.invoices updated !! id
  = Some {| Sql.customer_id := JS.get formData "customerId";
            Sql.amount :=
              JS.VNumber
                (JS.mul (JS.ToNumber (JS.get formData "amount")) (JS.of_Z 100));
            Sql.status := JS.get formData "status";
            Sql.date := Sql.date row |}
  ∧ (∀ other, other ≠ id →
              Sql.invoices updated !! other = Sql.invoices (db w) !! other)
  ∧ Sql.customers updated = Sql.customers (db w).
Proof.
  intros stmt Hparse Hrow Hsql updated. subst updated.
  rewrite UpdateInvoice_CreateInvoice in Hparse.
  rewrite (updateInvoice_run _ _ _ _ _ _ Hparse). fold stmt.
  destruct (sql_cases env stmt w) as [Hthrow|(db' & Hexec & Hret)].
  { by rewrite Hthrow in Hsql. }
  rewrite Hret. simpl in *. rewrite Hrow in Hexec.
  destruct (Sql.admissible _ _ _); [|done]. injection Hexec as <-. simpl.
  split; [by rewrite lookup_alter_eq, Hrow|].
  split; [|done]. intros other Hother. by rewrite lookup_alter_ne.
Qed.

Lemma updateInvoice_existing_row_witness :
  Sql.invoices
    (db (updateInvoice sample_env "inv-7" initial_state paid_invoice_form
           billed_world).2) !! "inv-7"
  = Some {| Sql.customer_id := JS.VString "123";
            Sql.amount := JS.VNumber (JS.of_Z 4500);
            Sql.status := JS.VString "paid";
            Sql.date := JS.VString "2024-02-29" |}.
Proof.
  refine (proj1 (updateInvoice_existing_row sample_env "inv-7" initial_state
                   paid_invoice_form _ billed_world
                   {| Sql.customer_id := JS.VString "9";
                      Sql.amount := JS.VNumber (JS.of_Z 100);
                      Sql.status := JS.VString "pending";
                      Sql.date := JS.VString "2024-02-29" |} _ _ _));
    vm_compute; reflexivity.
Defined.

(** X16. [updateCustomer], with a submission that passes validation and a
    call to the store that returns, sets the name and the email of the
    row with the identifier to the trimmed submitted ones when there is
    such a row and adds none when there is not; the other rows and the
    invoices are as they were, the customers path is invalidated and the
    action ends in the redirect to it. *)
Theorem updateCustomer_valid_submission env id prevState formData data w :
  let stmt :=
    Sql.UPDATE_customers (Zod.prop data "name") (Zod.prop data "email") id in
  Zod.safeParse UpdateCustomer (customer_fields formData) = Zod.Success data →
  (sql env stmt w).1 = Normal () →
  ∃ name email updated,
    JS.get formData "name" = JS.VString name
    ∧ JS.get formData "email" = JS.VString email
    ∧ updateCustomer env id prevState formData w
      = (Throw (NEXT_REDIRECT "/dashboard/customers"),
         {| db := updated;
            queries :=
              Sql.UPDATE_customers (JS.VString (JS.trim name))
                (JS.VString (JS.trim email)) id :: queries w;
            revalidated := "/dashboard/customers" :: revalidated w |})
    ∧ Sql.customers updated !! id
      = match Sql.customers (db w) !! id with
        | Some _ => Some {| Sql.name := JS.VString (JS.trim name);
                            Sql.email := JS.VString (JS.trim email) |}
        | None => None
        end
    ∧ (∀ other, other ≠ id →
                Sql.customers updated !! other = Sql.customers (db w) !! other)
    ∧ Sql.invoices updated = Sql.invoices (db w).
Proof.
  intros stmt Hparse Hsql.
  rewrite UpdateCustomer_CreateCustomer in Hparse.
  destruct (customer_Success _ _ Hparse)
    as (name & email & Hname & Hemail & Hn & He & _).
  rewrite (updateCustomer_run _ _ _ _ _ _ Hparse). fold stmt.
  destruct (sql_cases env stmt w) as [Hthrow|(db' & Hexec & Hret)].
  { by rewrite Hthrow in Hsql. }
  rewrite Hret. subst stmt. rewrite Hn, He in *.
  simpl in Hexec. injection Hexec as <-.
  exists name, email. eexists. split; [done|]. split; [done|].
  split; [reflexivity|]. simpl.
  split; [rewrite lookup_alter_eq; by destruct (Sql.customers (db w) !! id)|].
  split; [|done]. intros other Hother. by rewrite lookup_alter_ne.
Qed.

Lemma updateCustomer_valid_submission_witness :
  ∃ name email updated,
    JS.get customer_form "name" = JS.VString name
    ∧ JS.get customer_form "email" = JS.VString email
    ∧ updateCustomer sample_env "123e4567-e89b-12d3-a456-426614174000"
        initial_state customer_form taken_world
      = (Throw (NEXT_REDIRECT "/dashboard/customers"),
         {| db := updated;
            queries :=
              Sql.UPDATE_customers (JS.VString (JS.trim name))
                (JS.VString (JS.trim email))
                "123e4567-e89b-12d3-a456-426614174000" :: queries taken_world;
            revalidated := "/dashboard/customers" :: revalidated taken_world |})
    ∧ Sql.customers updated !! "123e4567-e89b-12d3-a456-426614174000"
      = match Sql.customers (db taken_world)
              !! "123e4567-e89b-12d3-a456-426614174000" with
        | Some _ => Some {| Sql.name := JS.VString (JS.trim name);
                            Sql.email := JS.VString (JS.trim email) |}
        | None => None
        end
    ∧ (∀ other, other ≠ "123e4567-e89b-12d3-a456-426614174000" →
                Sql.customers updated !! other
                = Sql.customers (db taken_world) !! other)
    ∧ Sql.invoices updated = Sql.invoices (db taken_world).
Proof.
  refine (updateCustomer_valid_submission sample_env
            "123e4567-e89b-12d3-a456-426614174000" initial_state customer_form
            {[ "name" := JS.VString "Alice";
               "email" := JS.VString "alice@example.com" ]}
            taken_world _ _);
    vm_compute; reflexivity.
Defined.

(** X17. [deleteInvoice] can be run again: with a storage client that
    answers, a second [deleteInvoice] on the same identifier returns
    nothing, as the first did, and leaves the store as the first left it,
    whether or not the identifier matched a row. *)
Theorem deleteInvoice_twice env env' id w :
  storage_fault env = false →
  storage_fault env' = false →
  let once := deleteInvoice env id w in
  let twice := deleteInvoice env' id once.2 in
  once.1 = Normal None
  ∧ twice.1 = Normal None
  ∧ db twice.2 = db once.2
  ∧ Sql.invoices (db once.2) !! id = None.
Proof.
  intros Hfault Hfault' once twice. subst twice once.
  rewrite !deleteInvoice_run, Hfault, Hfault'. cbv zeta. simpl.
  rewrite delete_delete_eq, lookup_delete_eq. done.
Qed.

Lemma deleteInvoice_twice_witness :
  (deleteInvoice sample_env "inv-7" billed_world).1 = Normal None
  ∧ (deleteInvoice sample_env "inv-7"
       (deleteInvoice sample_env "inv-7" billed_world).2).1 = Normal None
  ∧ db (deleteInvoice sample_env "inv-7"
          (deleteInvoice sample_env "inv-7" billed_world).2).2
    = db (deleteInvoice sample_env "inv-7" billed_world).2
  ∧ Sql.invoices (db (deleteInvoice sample_env "inv-7" billed_world).2)
    !! "inv-7" = None.
Proof.
  apply (deleteInvoice_twice sample_env sample_env "inv-7" billed_world);
    reflexivity.
Defined.

(** ** Whole amounts *)

(** X18. The amounts for which the product is right: when the submitted
    amount is a whole number [n] with [100 * n] below 2^53, the amount of
    the statement [createInvoice] and [updateInvoice] send is [100 * n]
    exactly, a whole number of cents. *)
Theorem whole_amount_in_cents env id prevState formData data w n :
  Zod.safeParse CreateInvoice (invoice_fields formData) = Zod.Success data →
  0 < n → 100 * n < 2 ^ 53 →
  JS.ToNumber (JS.get formData "amount") = JS.of_Z n →
  (∃ c s d,
     queries (createInvoice env prevState formData w).2
     = Sql.INSERT_INTO_invoices c (JS.VNumber (JS.of_Z (100 * n))) s d :: queries w)
  ∧ (∃ c s,
       queries (updateInvoice env id prevState formData w).2
       = Sql.UPDATE_invoices c (JS.VNumber (JS.of_Z (100 * n))) s id :: queries w)
  ∧ JS.isInteger (JS.of_Z (100 * n)) = true.
Proof.
  intros Hparse Hn Hfit Hamount.
  assert (JS.mul (JS.ToNumber (JS.get formData "amount")) (JS.of_Z 100)
          = JS.of_Z (100 * n)
          ∧ JS.isInteger (JS.of_Z (100 * n)) = true) as [Hcents Hint].
  { rewrite Hamount. destruct n as [|p|p]; [lia| |lia].
    change (100 * Zpos p) with (Zpos (100 * p)) in *.
    rewrite (Pos.mul_comm 100 p) in *.
    rewrite (mul_of_Z_pos p 100 Hfit).
    split; [done|]. by apply isInteger_of_Z_pos. }
  split; [|split; [|done]].
  - rewrite (createInvoice_run _ _ _ _ _ Hparse), Hcents.
    match goal with
    | |- context [sql ?e ?stmt ?w] =>
        pose proof (sql_queries e stmt w) as Hsent;
        destruct (sql e stmt w) as [[[]|?] ?]
    end; simpl in *; eauto.
  - rewrite (updateInvoice_run _ _ _ _ _ _ Hparse), Hcents.
    match goal with
    | |- context [sql ?e ?stmt ?w] =>
        pose proof (sql_queries e stmt w) as Hsent;
        destruct (sql e stmt w) as [[[]|?] ?]
    end; simpl in *; eauto.
Qed.

Lemma whole_amount_in_cents_witness :
  (∃ c s d,
     queries (createInvoice sample_env initial_state paid_invoice_form
                acme_world).2
     = [Sql.INSERT_INTO_invoices c (JS.VNumber (JS.of_Z 4500)) s d])
  ∧ (∃ c s,
       queries (updateInvoice sample_env "inv-7" initial_state
                  paid_invoice_form acme_world).2
       = [Sql.UPDATE_invoices c (JS.VNumber (JS.of_Z 4500)) s "inv-7"])
  ∧ JS.isInteger (JS.of_Z 4500) = true.
Proof.
  refine (whole_amount_in_cents sample_env "inv-7" initial_state
            paid_invoice_form
            {[ "customerId" := JS.VString "123";
               "amount" := JS.VNumber (JS.of_Z 45);
               "status" := JS.VString "paid" ]} acme_world 45 _ _ _ _);
    [vm_compute; reflexivity | lia | lia | vm_compute; reflexivity].
Defined.
